(** * MADS (Multi-Agent Documentation System): the deterministic scaffolding
    of [main.py] -- the two tools [FileWriteTool] and [CodeAnalyzerTool],
    the task pipeline handed to the crew, and the [__main__] block.

    Python strings are lists of code points ([pystr]); file contents are
    lists of bytes (each a [Z] in 0..255).  Paths are lists of segment
    names (no ["."], [".."] or empty segments); the empty path is the
    string [''], which names no file ([os.path.exists('')] is [False] and
    [open('')] raises [FileNotFoundError]), while as the directory part of
    a one-segment path it stands for the current directory, which always
    exists.  Rocq strings hold the UTF-8 encoding of the Python text.  The
    platform is POSIX with a UTF-8 locale: text mode writes no newline
    translation, and reads translate newlines universally
    ([newline=None]). *)

From Stdlib Require Import ZArith Lia Bool.
From Stdlib Require Import Numbers.DecimalString Strings.Ascii.
From stdpp Require Import base list gmap sets strings.

(* ------------------------------------------------------------------ *)
(** ** Python strings and UTF-8 *)

Definition pystr := list Z.

(** A Rocq (ASCII) literal as a Python string. *)
Definition cps (s : string) : pystr :=
  map (fun a => Z.of_nat (Ascii.nat_of_ascii a)) (String.list_ascii_of_string s).

Definition is_surrogate (c : Z) : bool := (0xD800 <=? c)%Z && (c <=? 0xDFFF)%Z.

(** [str.encode('utf-8')] of one code point; surrogates are refused
    ([UnicodeEncodeError]). *)
Definition utf8_encode_cp (c : Z) : option (list Z) :=
  if (c <? 0x80)%Z then Some [c]
  else if (c <? 0x800)%Z then
    Some [Z.lor 0xC0 (Z.shiftr c 6); Z.lor 0x80 (Z.land c 0x3F)]
  else if is_surrogate c then None
  else if (c <? 0x10000)%Z then
    Some [Z.lor 0xE0 (Z.shiftr c 12);
          Z.lor 0x80 (Z.land (Z.shiftr c 6) 0x3F);
          Z.lor 0x80 (Z.land c 0x3F)]
  else
    Some [Z.lor 0xF0 (Z.shiftr c 18);
          Z.lor 0x80 (Z.land (Z.shiftr c 12) 0x3F);
          Z.lor 0x80 (Z.land (Z.shiftr c 6) 0x3F);
          Z.lor 0x80 (Z.land c 0x3F)].

Fixpoint utf8_encode (s : pystr) : option (list Z) :=
  match s with
  | [] => Some []
  | c :: r =>
      match utf8_encode_cp c, utf8_encode r with
      | Some b, Some bs => Some (b ++ bs)
      | _, _ => None
      end
  end.

Definition in_range (lo hi b : Z) : bool := (lo <=? b)%Z && (b <=? hi)%Z.
Definition is_cont (b : Z) : bool := in_range 0x80 0xBF b.
Definition cont_bits (b : Z) : Z := Z.land b 0x3F.

(** Strict UTF-8 decoding as [bytes.decode('utf-8')] does it: no overlong
    forms, no surrogates, nothing above U+10FFFF. *)
Fixpoint utf8_decode (bs : list Z) : option pystr :=
  match bs with
  | [] => Some []
  | b0 :: r0 =>
      if (b0 <? 0x80)%Z then cons b0 <$> utf8_decode r0
      else if in_range 0xC2 0xDF b0 then
        match r0 with
        | b1 :: r1 =>
            if is_cont b1
            then cons (Z.lor (Z.shiftl (Z.land b0 0x1F) 6) (cont_bits b1))
                   <$> utf8_decode r1
            else None
        | [] => None
        end
      else if in_range 0xE0 0xEF b0 then
        let lo := (if (b0 =? 0xE0)%Z then 0xA0 else 0x80)%Z in
        let hi := (if (b0 =? 0xED)%Z then 0x9F else 0xBF)%Z in
        match r0 with
        | b1 :: b2 :: r2 =>
            if in_range lo hi b1 && is_cont b2
            then cons (Z.lor (Z.shiftl (Z.land b0 0x0F) 12)
                         (Z.lor (Z.shiftl (cont_bits b1) 6) (cont_bits b2)))
                   <$> utf8_decode r2
            else None
        | _ => None
        end
      else if in_range 0xF0 0xF4 b0 then
        let lo := (if (b0 =? 0xF0)%Z then 0x90 else 0x80)%Z in
        let hi := (if (b0 =? 0xF4)%Z then 0x8F else 0xBF)%Z in
        match r0 with
        | b1 :: b2 :: b3 :: r3 =>
            if in_range lo hi b1 && is_cont b2 && is_cont b3
            then cons (Z.lor (Z.shiftl (Z.land b0 0x07) 18)
                         (Z.lor (Z.shiftl (cont_bits b1) 12)
                            (Z.lor (Z.shiftl (cont_bits b2) 6) (cont_bits b3))))
                   <$> utf8_decode r3
            else None
        | _ => None
        end
      else None
  end.

(** Where CPython's strict UTF-8 decoder stops on [bs] (whose first byte
    is at offset [pos] of the decoded bytes): [None] when [bs] decodes,
    else the [start], [end] and [reason] of the [UnicodeDecodeError] it
    raises.  A truncated sequence is reported up to the end of the data. *)
Fixpoint utf8_first_error (pos : nat) (bs : list Z) : option (nat * nat * string) :=
  match bs with
  | [] => None
  | b0 :: r0 =>
      let bad (k : nat) := Some (pos, pos + k, "invalid continuation byte")%string in
      let eod := Some (pos, pos + length bs, "unexpected end of data")%string in
      if (b0 <? 0x80)%Z then utf8_first_error (S pos) r0
      else if (b0 <? 0xC2)%Z then Some (pos, S pos, "invalid start byte")%string
      else if (b0 <? 0xE0)%Z then
        match r0 with
        | [] => eod
        | b1 :: r1 => if is_cont b1 then utf8_first_error (pos + 2) r1 else bad 1
        end
      else if (b0 <? 0xF0)%Z then
        match r0 with
        | [] => eod
        | b1 :: r1 =>
            if negb (is_cont b1)
               || (if (b1 <? 0xA0)%Z then (b0 =? 0xE0)%Z else (b0 =? 0xED)%Z)
            then bad 1
            else match r1 with
                 | [] => eod
                 | b2 :: r2 => if is_cont b2 then utf8_first_error (pos + 3) r2 else bad 2
                 end
        end
      else if (b0 <? 0xF5)%Z then
        match r0 with
        | [] => eod
        | b1 :: r1 =>
            if negb (is_cont b1)
               || (if (b1 <? 0x90)%Z then (b0 =? 0xF0)%Z else (b0 =? 0xF4)%Z)
            then bad 1
            else match r1 with
                 | [] => eod
                 | b2 :: r2 =>
                     if negb (is_cont b2) then bad 2
                     else match r2 with
                          | [] => eod
                          | b3 :: r3 =>
                              if is_cont b3 then utf8_first_error (pos + 4) r3 else bad 3
                          end
                 end
        end
      else Some (pos, S pos, "invalid start byte")%string
  end.

(** The length of the run of surrogates at the head of [s]. *)
Fixpoint surrogate_run (s : pystr) : nat :=
  match s with
  | c :: r => if is_surrogate c then S (surrogate_run r) else 0
  | [] => 0
  end.

(** Where the UTF-8 encoder stops on [s] (first character at [pos]): the
    first surrogate, its position and the end of the run of surrogates it
    starts, which the [UnicodeEncodeError] covers. *)
Fixpoint first_surrogate (pos : nat) (s : pystr) : option (Z * nat * nat) :=
  match s with
  | [] => None
  | c :: r =>
      if is_surrogate c then Some (c, pos, pos + S (surrogate_run r))
      else first_surrogate (S pos) r
  end.

(** Universal newlines on read: ["\r\n"] and a lone ["\r"] become ["\n"]. *)
Fixpoint translate_newlines (s : pystr) : pystr :=
  match s with
  | [] => []
  | c :: r =>
      if (c =? 13)%Z then
        match r with
        | d :: r' => if (d =? 10)%Z then 10%Z :: translate_newlines r'
                     else 10%Z :: translate_newlines r
        | [] => [10%Z]
        end
      else c :: translate_newlines r
  end.

(** [str(n)] for a non-negative integer. *)
Definition nat_str (n : nat) : string := NilEmpty.string_of_uint (Nat.to_uint n).

Definition hex_digit (d : Z) : Ascii.ascii :=
  if (d <? 10)%Z then Ascii.ascii_of_nat (48 + Z.to_nat d)
  else Ascii.ascii_of_nat (87 + Z.to_nat d).

(** [format(z, '0kx')] for [0 <= z < 16^k]: [k] lower-case hex digits. *)
Fixpoint hex_pad (k : nat) (z : Z) : string :=
  match k with
  | O => ""
  | S k' => (hex_pad k' (z / 16) ++ String (hex_digit (z mod 16)) "")%string
  end.

Definition squote : Ascii.ascii := "039"%char.
Definition dquote : Ascii.ascii := "034"%char.
Definition backslash : Ascii.ascii := "092"%char.

(** One character in [repr(s)] quoted by [q] ([unicode_repr]). *)
Definition repr_char (q c : Ascii.ascii) : string :=
  let n := Ascii.nat_of_ascii c in
  if bool_decide (c = q) || bool_decide (c = backslash) then String backslash (String c "")
  else if Nat.eqb n 9 then String backslash "t"
  else if Nat.eqb n 10 then String backslash "n"
  else if Nat.eqb n 13 then String backslash "r"
  else if Nat.ltb n 32 || Nat.eqb n 127 then
    String backslash ("x" ++ hex_pad 2 (Z.of_nat n))%string
  else String c "".

Fixpoint repr_body (q : Ascii.ascii) (cs : list Ascii.ascii) : string :=
  match cs with
  | [] => ""
  | c :: r => (repr_char q c ++ repr_body q r)%string
  end.

(** [repr(s)] of a [str]: single quotes, or double quotes when [s] holds
    a single quote and no double quote.  Exact on ASCII; other characters
    are copied, as [repr] does with the printable ones. *)
Definition py_repr (s : string) : string :=
  let cs := String.list_ascii_of_string s in
  let q := if existsb (fun c => bool_decide (c = squote)) cs
              && negb (existsb (fun c => bool_decide (c = dquote)) cs)
           then dquote else squote in
  String q (repr_body q cs ++ String q "").


(* ------------------------------------------------------------------ *)
(** ** The file system and Python's exceptions *)

Abbreviation path := (list string).

(** Directories, regular files with their bytes, and the directories in
    which the process may not create or write entries (EACCES). *)
Record fs := mkFS {
  fs_dirs : gset path;
  fs_files : gmap path (list Z);
  fs_locked : gset path
}.

Fixpoint str_has_nul (s : string) : bool :=
  match s with
  | EmptyString => false
  | String a r => bool_decide (a = Ascii.zero) || str_has_nul r
  end.

Definition has_nul (p : path) : bool := existsb str_has_nul p.

(** [os.path.dirname] *)
Definition os_path_dirname (p : path) : path := removelast p.

(** Rendering a path as the Python string the program holds. *)
Definition path_str (p : path) : string := String.concat "/" p.


(** [p] resolves to an existing directory, [p] read as the directory part
    of a relative path: the empty one is the current directory.  Where the
    program hands a path of its own to the OS, the empty path is tested
    first (it names nothing there), so [is_dir] is only used on it as a
    parent. *)
Definition is_dir (s : fs) (p : path) : bool :=
  bool_decide (p = []) || bool_decide (p ∈ fs_dirs s).
Definition is_file (s : fs) (p : path) : bool := bool_decide (is_Some (fs_files s !! p)).

(** [os.path.exists]: [False] on a path with an embedded NUL and on the
    empty path (its [os.stat] raises). *)
Definition os_path_exists (s : fs) (p : path) : bool :=
  negb (has_nul p) && negb (bool_decide (p = [])) && (is_dir s p || is_file s p).

(** Some proper prefix of [p] is a regular file (ENOTDIR). *)
Definition ancestor_is_file (s : fs) (p : path) : bool :=
  existsb (fun n => is_file s (take n p)) (seq 1 (length p - 1)).

Inductive PyExc :=
  | FileNotFoundError (p : path)
  | FileExistsError (p : path)
  | NotADirectoryError (p : path)
  | IsADirectoryError (p : path)
  | PermissionError (p : path)
  | ValueError (msg : string)
  | TypeError (msg : string)
  | OverflowError (msg : string)
  | UnicodeEncodeError (obj : pystr)
  | UnicodeDecodeError (obj : list Z).

(** [except IOError] (an alias of [OSError] in Python 3). *)
Definition is_OSError (e : PyExc) : bool :=
  match e with
  | FileNotFoundError _ | FileExistsError _ | NotADirectoryError _
  | IsADirectoryError _ | PermissionError _ => true
  | _ => false
  end.

(** [except Exception] *)
Definition is_Exception (e : PyExc) : bool := true.

(** [str(e)]: an [OSError] shows [repr] of its file name; a Unicode
    error shows the range [start..end-1] of its [object] that the codec
    refused, or the one byte or character when the range has one.  The
    ranges are those the codec computes on the object (an encoded text
    always holds a surrogate, a decoded one always an error). *)
Definition exc_str (e : PyExc) : string :=
  match e with
  | FileNotFoundError p => ("[Errno 2] No such file or directory: " ++ py_repr (path_str p))%string
  | FileExistsError p => ("[Errno 17] File exists: " ++ py_repr (path_str p))%string
  | NotADirectoryError p => ("[Errno 20] Not a directory: " ++ py_repr (path_str p))%string
  | IsADirectoryError p => ("[Errno 21] Is a directory: " ++ py_repr (path_str p))%string
  | PermissionError p => ("[Errno 13] Permission denied: " ++ py_repr (path_str p))%string
  | ValueError m | TypeError m | OverflowError m => m
  | UnicodeEncodeError obj =>
      let '(c, start, stop) := default (0%Z, O, O) (first_surrogate 0 obj) in
      if Nat.eqb stop (S start) then
        ("'utf-8' codec can't encode character '" ++ String backslash "u" ++ hex_pad 4 c
         ++ "' in position " ++ nat_str start ++ ": surrogates not allowed")%string
      else
        ("'utf-8' codec can't encode characters in position " ++ nat_str start ++ "-"
         ++ nat_str (stop - 1) ++ ": surrogates not allowed")%string
  | UnicodeDecodeError obj =>
      let '(start, stop, reason) := default (O, O, ""%string) (utf8_first_error 0 obj) in
      if Nat.ltb start (length obj) && Nat.eqb stop (S start) then
        ("'utf-8' codec can't decode byte 0x" ++ hex_pad 2 (nth start obj 0%Z)
         ++ " in position " ++ nat_str start ++ ": " ++ reason)%string
      else
        ("'utf-8' codec can't decode bytes in position " ++ nat_str start ++ "-"
         ++ nat_str (stop - 1) ++ ": " ++ reason)%string
  end.

(** Python code over the file system: a state and exception monad. *)
Inductive outcome (A : Type) := Ret (a : A) | Exc (e : PyExc).
Arguments Ret {A} a.
Arguments Exc {A} e.

Definition PyM (A : Type) : Type := fs -> fs * outcome A.

Definition pret {A} (a : A) : PyM A := fun s => (s, Ret a).
Definition praise {A} (e : PyExc) : PyM A := fun s => (s, Exc e).
Definition pbind {A B} (m : PyM A) (k : A -> PyM B) : PyM B :=
  fun s => match m s with
           | (s', Ret a) => k a s'
           | (s', Exc e) => (s', Exc e)
           end.
Definition pget : PyM fs := fun s => (s, Ret s).
Definition pput (s : fs) : PyM unit := fun _ => (s, Ret tt).

(** [try: m  except <catches> as e: h e] *)
Definition try_except {A} (m : PyM A) (catches : PyExc -> bool) (h : PyExc -> PyM A)
  : PyM A :=
  fun s => match m s with
           | (s', Exc e) => if catches e then h e s' else (s', Exc e)
           | r => r
           end.

Declare Scope py_scope.
Delimit Scope py_scope with py.
Notation "'do' x <- m ; k" := (pbind m (fun x => k))
  (at level 200, x name, m at level 100, k at level 200) : py_scope.
Notation "m ;; k" := (pbind m (fun _ => k)) (at level 100, right associativity) : py_scope.
Open Scope py_scope.

(** [os.mkdir(p)]; [os.mkdir('')] raises [FileNotFoundError]. *)
Definition os_mkdir (p : path) : PyM unit :=
  do s <- pget;
  if has_nul p then praise (ValueError "embedded null byte")
  else if bool_decide (p = []) then praise (FileNotFoundError p)
  else if is_dir s p || is_file s p then praise (FileExistsError p)
  else if ancestor_is_file s p then praise (NotADirectoryError p)
  else if negb (is_dir s (os_path_dirname p)) then praise (FileNotFoundError p)
  else if bool_decide (os_path_dirname p ∈ fs_locked s) then praise (PermissionError p)
  else pput (mkFS ({[p]} ∪ fs_dirs s) (fs_files s) (fs_locked s)).

(** [os.makedirs(name)] (exist_ok=False), on the reversed path:
<<
    head, tail = path.split(name)
    if head and tail and not path.exists(head):
        try: makedirs(head)
        except FileExistsError: pass
    mkdir(name)
>> *)
Fixpoint makedirs_rev (rp : list string) : PyM unit :=
  match rp with
  | [] => praise (FileNotFoundError [])
  | _ :: rh =>
      do s <- pget;
      (if bool_decide (rh <> []) && negb (os_path_exists s (rev rh)) then
         try_except (makedirs_rev rh)
           (fun e => match e with FileExistsError _ => true | _ => false end)
           (fun _ => pret tt)
       else pret tt) ;;
      os_mkdir (rev rp)
  end.

Definition os_makedirs (p : path) : PyM unit := makedirs_rev (rev p).

(** [open(p, "w")]: creates or truncates the file; [open('', "w")] raises
    [FileNotFoundError]. *)
Definition open_w (p : path) : PyM unit :=
  do s <- pget;
  if has_nul p then praise (ValueError "embedded null byte")
  else if bool_decide (p = []) then praise (FileNotFoundError p)
  else if is_dir s p then praise (IsADirectoryError p)
  else if ancestor_is_file s p then praise (NotADirectoryError p)
  else if negb (is_dir s (os_path_dirname p)) then praise (FileNotFoundError p)
  else if bool_decide (os_path_dirname p ∈ fs_locked s) then praise (PermissionError p)
  else pput (mkFS (fs_dirs s) (<[p := []]> (fs_files s)) (fs_locked s)).

(** [f.write(content)] on a file opened with [encoding="utf-8"]: the text
    is encoded, then stored after what is already written. *)
Definition file_write (p : path) (content : pystr) : PyM unit :=
  do s <- pget;
  match utf8_encode content with
  | None => praise (UnicodeEncodeError content)
  | Some bs =>
      let old := default [] (fs_files s !! p) in
      pput (mkFS (fs_dirs s) (<[p := old ++ bs]> (fs_files s)) (fs_locked s))
  end.

(* ------------------------------------------------------------------ *)
(** ** [FileWriteTool._run] *)

Definition FileWriteTool_run (file_path : path) (content : pystr) : PyM string :=
  try_except
    (let output_dir := os_path_dirname file_path in
     do s <- pget;
     (if bool_decide (output_dir <> []) && negb (os_path_exists s output_dir)
      then os_makedirs output_dir else pret tt) ;;
     open_w file_path ;;
     file_write file_path content ;;
     pret ("File '" ++ path_str file_path ++ "' successfully written with "
           ++ nat_str (length content) ++ " characters.")%string)
    is_OSError
    (fun e => pret ("Error writing file '" ++ path_str file_path ++ "': " ++ exc_str e)%string).

Definition fs0 : fs := mkFS ∅ ∅ ∅.



(** A well-formed tree: every proper ancestor of an entry is a directory. *)
Definition wf (s : fs) : Prop :=
  ∀ q q', (q ∈ fs_dirs s ∨ is_Some (fs_files s !! q)) →
    q' `prefix_of` q → q' ≠ [] → q' ≠ q → q' ∈ fs_dirs s.

(** A path the process can write: not a directory, no regular file on the
    way to it, no locked directory on the way to it, no NUL byte. *)
Definition writable (s : fs) (p : path) : Prop :=
  p ≠ [] ∧ has_nul p = false ∧ (p ∉ fs_dirs s) ∧
  (∀ q, q `prefix_of` p → q ≠ [] → q ≠ p → fs_files s !! q = None) ∧
  (∀ q, q `prefix_of` p → q ≠ p → q ∉ fs_locked s).

Definition write_ok_msg (file_path : path) (content : pystr) : string :=
  ("File '" ++ path_str file_path ++ "' successfully written with "
   ++ nat_str (length content) ++ " characters.")%string.

(* ------------------------------------------------------------------ *)
(** ** [CodeAnalyzerTool._run] *)

(** [str.isspace] on one code point. *)
Definition py_isspace (c : Z) : bool :=
  in_range 0x09 0x0D c || in_range 0x1C 0x20 c || (c =? 0x85)%Z || (c =? 0xA0)%Z
  || (c =? 0x1680)%Z || in_range 0x2000 0x200A c || (c =? 0x2028)%Z
  || (c =? 0x2029)%Z || (c =? 0x202F)%Z || (c =? 0x205F)%Z || (c =? 0x3000)%Z.

Fixpoint lstrip (s : pystr) : pystr :=
  match s with
  | [] => []
  | c :: r => if py_isspace c then lstrip r else s
  end.

(** [s.strip()] *)
Definition py_strip (s : pystr) : pystr := rev (lstrip (rev (lstrip s))).

(** [s.split(sep)] for a one-character separator. *)
Fixpoint split_on (sep : Z) (s : pystr) : list pystr :=
  match s with
  | [] => [[]]
  | c :: r =>
      if (c =? sep)%Z then [] :: split_on sep r
      else match split_on sep r with
           | w :: ws => (c :: w) :: ws
           | [] => [[c]]
           end
  end.

Fixpoint is_prefix (pre s : pystr) : bool :=
  match pre, s with
  | [], _ => true
  | a :: pre', b :: s' => (a =? b)%Z && is_prefix pre' s'
  | _ :: _, [] => false
  end.

(** [s.startswith(prefixes)] with a tuple of prefixes. *)
Definition startswith_any (s : pystr) (prefixes : list pystr) : bool :=
  existsb (fun pre => is_prefix pre s) prefixes.

(** [needle in hay] *)
Fixpoint contains (needle hay : pystr) : bool :=
  is_prefix needle hay ||
  match hay with
  | [] => false
  | _ :: r => contains needle r
  end.

Definition import_prefixes : list pystr :=
  [cps "import "; cps "from "; cps "require"; cps "include"].

(** [[l.strip() for l in lines if l.strip().startswith(('import ', 'from ',
    'require', 'include'))]] *)
Fixpoint import_lines (lines : list pystr) : list pystr :=
  match lines with
  | [] => []
  | l :: ls =>
      if startswith_any (py_strip l) import_prefixes
      then py_strip l :: import_lines ls
      else import_lines ls
  end.

(** The reversed base name cut at its last dot: (reversed extension
    without the dot, reversed stem). *)
Fixpoint split_last_dot_rev (rb : list Ascii.ascii) : option (list Ascii.ascii * list Ascii.ascii) :=
  match rb with
  | [] => None
  | a :: r =>
      if bool_decide (a = "."%char) then Some ([], r)
      else match split_last_dot_rev r with
           | Some (e, st) => Some (a :: e, st)
           | None => None
           end
  end.

(** [os.path.splitext(p)[1]]: from the last dot of the base name, unless
    only dots precede it there. *)
Definition splitext_ext (p : path) : string :=
  let b := String.list_ascii_of_string (List.last p "") in
  match split_last_dot_rev (rev b) with
  | None => ""
  | Some (e, strev) =>
      if forallb (fun a => bool_decide (a = "."%char)) strev then ""
      else String.string_of_list_ascii ("."%char :: rev e)
  end.

(** [open(p, 'r', encoding='utf-8')] then [f.read()]: [open('')] raises
    [FileNotFoundError]; [read()] decodes the whole file at once, so the
    positions of a [UnicodeDecodeError] are those in the file. *)
Definition read_text (p : path) : PyM pystr :=
  do s <- pget;
  if has_nul p then praise (ValueError "embedded null byte")
  else if bool_decide (p = []) then praise (FileNotFoundError p)
  else if is_dir s p then praise (IsADirectoryError p)
  else if ancestor_is_file s p then praise (NotADirectoryError p)
  else match fs_files s !! p with
       | None => praise (FileNotFoundError p)
       | Some bs =>
           match utf8_decode bs with
           | None => praise (UnicodeDecodeError bs)
           | Some cs => pret (translate_newlines cs)
           end
       end.

(** The [analysis] dict, which [_run] returns as [json.dumps(analysis,
    indent=2)]. *)
Record Analysis := mkAnalysis {
  an_file : path;
  an_lines : nat;
  an_has_classes : bool;
  an_has_functions : bool;
  an_imports : list pystr;
  an_file_type : string
}.

Inductive AnalyzerOut :=
  | AnalysisJson (a : Analysis)
  | AnalyzerError (msg : string).

Definition analyze_content (file_path : path) (content : pystr) : Analysis :=
  let lines := split_on 10 content in
  {| an_file := file_path;
     an_lines := length lines;
     an_has_classes := contains (cps "class ") content;
     an_has_functions := contains (cps "def ") content || contains (cps "function ") content;
     an_imports := import_lines lines;
     an_file_type := splitext_ext file_path |}.

Definition CodeAnalyzerTool_run (file_path : path) : PyM AnalyzerOut :=
  try_except
    (do content <- read_text file_path;
     pret (AnalysisJson (analyze_content file_path content)))
    is_Exception
    (fun e => pret (AnalyzerError ("Error analyzing " ++ path_str file_path ++ ": "
                                   ++ exc_str e)%string)).

(* ------------------------------------------------------------------ *)
(** ** Agents, tasks and the crew *)

Inductive Tool := DirectoryReadTool | FileReadTool | FileWriteTool | CodeAnalyzerTool.

(** [ChatOpenAI(model=..., temperature=...)], the temperature in tenths. *)
Record LLM := mkLLM { llm_model : string; llm_temperature_tenths : nat }.

Definition llm : LLM := mkLLM "gpt-4o-mini" 7.
Definition analyzer_llm : LLM := mkLLM "gpt-4o-mini" 3.

(** [Agent(role=..., goal=..., tools=..., llm=..., max_iter=...)]; the
    [backstory] persona text is left out. *)
Record Agent := mkAgent {
  role : string; goal : string; tools : list Tool; agent_llm : LLM; max_iter : nat
}.

Definition navigator_agent : Agent :=
  mkAgent "Senior Project Navigator"
    "Create a comprehensive map of the project structure, identifying all files, directories, and their relationships."
    [DirectoryReadTool; FileReadTool] llm 5.
Definition code_analyzer_agent : Agent :=
  mkAgent "Code Analysis Specialist"
    "Analyze code files to understand functionality, dependencies, patterns, and architecture."
    [FileReadTool; CodeAnalyzerTool] analyzer_llm 5.
Definition writer_agent : Agent :=
  mkAgent "Senior Technical Documentation Expert"
    "Create comprehensive, well-structured README.md documentation that is both informative and easy to understand."
    [FileWriteTool] llm 3.
Definition reviewer_agent : Agent :=
  mkAgent "Documentation Quality Reviewer"
    "Review and enhance documentation for completeness, clarity, and technical accuracy."
    [FileReadTool; FileWriteTool] llm 2.

(** [Task(description=..., expected_output=..., agent=..., context=[...])];
    a task is named by its position in the crew's task list, and
    [context] lists the positions of the tasks it names. *)
Record Task := mkTask {
  task_id : nat; description : string; expected_output : string;
  agent : Agent; context : list nat
}.

Definition structure_analysis_task : Task :=
  mkTask 1
"Analyze the complete structure of the project in directory '{project_directory}':
    1. List all directories and subdirectories with their purposes
    2. Identify all file types present (e.g., .py, .js, .json, .md)
    3. Locate key files (README, configuration files, main entry points)
    4. Create a hierarchical tree view of the project structure
    5. Identify the technology stack based on file extensions and config files"
"A detailed project structure report including:
    - Hierarchical directory tree
    - List of all files grouped by type
    - Identified technology stack
    - Key configuration files
    - Entry points and main modules"
    navigator_agent [].

Definition code_analysis_task : Task :=
  mkTask 2
"Based on the project structure, analyze the codebase in '{project_directory}':
    1. Examine main code files to understand functionality
    2. Identify key classes, functions, and modules
    3. Map dependencies and imports
    4. Detect design patterns and architectural decisions
    5. Note any external libraries or frameworks used
    6. Identify API endpoints if applicable"
"A comprehensive code analysis report including:
    - Main functionalities and features
    - Key components and their responsibilities
    - Dependency graph
    - Used design patterns
    - External dependencies list
    - API documentation if applicable"
    code_analyzer_agent [1].

Definition documentation_task : Task :=
  mkTask 3
"Create a professional README.md for the project in '{project_directory}':
    Use the structure and code analysis to write comprehensive documentation including:
    1. Project title and description
    2. Features and capabilities
    3. Prerequisites and requirements
    4. Installation instructions
    5. Usage examples with code snippets
    6. Project structure explanation
    7. Configuration guide
    8. API documentation (if applicable)
    9. Contributing guidelines
    10. License information
    
    Save the README.md in the project root directory."
    "A complete, well-formatted README.md file saved in the project directory"
    writer_agent [1; 2].

Definition review_task : Task :=
  mkTask 4
"Review and enhance the generated README.md in '{project_directory}':
    1. Check for completeness of all sections
    2. Verify technical accuracy
    3. Ensure clarity and readability
    4. Add missing information if needed
    5. Format code examples properly
    6. Add badges if applicable (version, license, etc.)
    7. Ensure links and references are correct
    8. Update the file with improvements"
    "An enhanced, production-ready README.md with all improvements applied"
    reviewer_agent [3].

(** [Crew(tasks=[...], process=Process.sequential)] *)
Definition documentation_crew : list Task :=
  [structure_analysis_task; code_analysis_task; documentation_task; review_task].

(* ------------------------------------------------------------------ *)
(** ** The pipeline runner ([documentation_crew.kickoff]) *)

(** [template.replace(key, value)] on Rocq strings ([fuel] bounds the scan). *)
Fixpoint replace_fuel (fuel : nat) (key value s : string) : string :=
  match fuel with
  | 0 => s
  | S f =>
      match s with
      | EmptyString => EmptyString
      | String a r =>
          if String.prefix key s && negb (String.eqb key "")
          then (value ++ replace_fuel f key value
                          (String.substring (String.length key) (String.length s) s))%string
          else String a (replace_fuel f key value r)
      end
  end.

Definition interpolate (template project_directory : string) : string :=
  replace_fuel (String.length template) "{project_directory}" project_directory template.

(** What the collaborator answers for one stage. *)
Inductive StageResult := StageOk (text : string) | StageFailed (reason : string).

(** The prompt context of one stage: resolved instructions, expected-output
    guidance, and the results of the stages in [context], tagged with
    the stage they come from. *)
Record StageContext := mkCtx {
  ctx_instructions : string;
  ctx_expected : string;
  ctx_upstream : list (nat * string)
}.

(** One executed stage: which stage, what it was given, what came back. *)
Record Event := mkEvent { ev_stage : nat; ev_context : StageContext; ev_result : StageResult }.

Inductive RunOutcome :=
  | Completed (final : string)
  | Failed (stage : nat) (reason : string)
  | Unresolved (stage dep : nat).

Section Runner.

(** The external collaborator: the agent framework and the model behind it. *)
Variable collab : Agent → StageContext → StageResult.
Variable project_directory : string.

(** The results of [deps], looked up in the results captured so far. *)
Fixpoint gather (results : gmap nat string) (deps : list nat)
  : (nat + list (nat * string)) :=
  match deps with
  | [] => inr []
  | d :: ds =>
      match results !! d with
      | None => inl d
      | Some t =>
          match gather results ds with
          | inl m => inl m
          | inr u => inr ((d, t) :: u)
          end
      end
  end.

(** Modelled from the spec: the Pipeline Runner (CrewAI's sequential
    process behind [kickoff], not part of this repository).  Stages run in
    list order; each gets its resolved instructions, its expected output
    and the captured results of its [depends_on] stages in the listed
    order; its result is recorded under its stage; the first failure
    aborts the run with a failure naming the stage; after the last stage
    its result is the overall output. *)
Fixpoint run_stages (results : gmap nat string) (last : string) (tasks : list Task)
  : list Event * RunOutcome :=
  match tasks with
  | [] => ([], Completed last)
  | t :: ts =>
      match gather results (context t) with
      | inl d => ([], Unresolved (task_id t) d)
      | inr up =>
          let ctx := mkCtx (interpolate (description t) project_directory)
                           (expected_output t) up in
          match collab (agent t) ctx with
          | StageFailed r => ([mkEvent (task_id t) ctx (StageFailed r)], Failed (task_id t) r)
          | StageOk out =>
              let '(evs, o) := run_stages (<[task_id t := out]> results) out ts in
              (mkEvent (task_id t) ctx (StageOk out) :: evs, o)
          end
      end
  end.

(** [documentation_crew.kickoff(inputs={"project_directory": ...})] *)
Definition kickoff_crew : list Event * RunOutcome :=
  run_stages ∅ "" documentation_crew.

End Runner.

(** The text a stage produced in a run, if it ran and succeeded. *)
Definition output_of (evs : list Event) (d : nat) : option string :=
  match List.find (fun e => Nat.eqb (ev_stage e) d) evs with
  | Some e => match ev_result e with StageOk t => Some t | StageFailed _ => None end
  | None => None
  end.

(* ------------------------------------------------------------------ *)
(** ** The [__main__] block *)

(** [s * n] *)
Fixpoint str_repeat (n : nat) (s : string) : string :=
  match n with 0 => "" | S m => (s ++ str_repeat m s)%string end.

(** [len(os.listdir(p))]; listing something that is not a directory raises. *)
Definition os_listdir_len (s : fs) (p : path) : outcome nat :=
  if has_nul p then Exc (ValueError "embedded null byte")
  else if bool_decide (p = []) then Exc (FileNotFoundError p)
  else if is_dir s p then
    Ret (length (List.filter (fun q => bool_decide (os_path_dirname q = p ∧ q ≠ []))
                   (elements (fs_dirs s) ++ map fst (map_to_list (fs_files s)))))
  else if is_file s p then Exc (NotADirectoryError p)
  else Exc (FileNotFoundError p).

(** [len(f.readlines())] of a text. *)
Definition readlines_len (t : pystr) : nat :=
  let n := length (List.filter (fun c => (c =? 10)%Z) t) in
  if (List.last t 10 =? 10)%Z then n else n + 1.

(** What [documentation_crew.kickoff] does, seen from [__main__]: it
    returns (leaving the tree as the agents' tools left it) or raises an
    [Exception] whose text is given. *)
Inductive KickoffResult := KickoffOk (after : fs) | KickoffRaises (msg : string).

Inductive MainEvent := Print (line : string) | Kickoff (project_dir : path).

(** The observable run of the script: what it prints and calls, and the
    process exit status. *)
Record MainRun := mkRun { events : list MainEvent; exit_status : nat }.

(** [os.getenv("PROJECT_DIR", "test_project")] is [env_project_dir] with
    its default; an uncaught exception ends the process with status 1;
    falling off the end of the script ends it with status 0. *)
Definition main (env_project_dir : option path) (s : fs)
    (kickoff : path → fs → KickoffResult) : MainRun :=
  let PROJECT_DIR := default ["test_project"] env_project_dir in
  if negb (os_path_exists s PROJECT_DIR) then
    mkRun [Print ("ERROR: Directory '" ++ path_str PROJECT_DIR ++ "' not found!")%string;
           Print "Please set PROJECT_DIR environment variable or ensure 'test_project' exists."]
          1
  else
  let found := Print ("✓ Target directory '" ++ path_str PROJECT_DIR ++ "' found.")%string in
  match os_listdir_len s PROJECT_DIR with
  | Exc _ => mkRun [found] 1
  | Ret n =>
  let banner :=
    [found;
     Print ("  Files found: " ++ nat_str n)%string;
     Print ("
" ++ str_repeat 50 "=")%string;
     Print "Starting MADS - Enhanced Documentation System";
     Print (str_repeat 50 "=" ++ "
")%string] in
  let on_error (msg : string) :=
    [Print ("
❌ Error during execution: " ++ msg)%string;
     Print "Please check your configuration and try again."] in
  match kickoff PROJECT_DIR s with
  | KickoffRaises msg => mkRun (banner ++ [Kickoff PROJECT_DIR] ++ on_error msg) 0
  | KickoffOk s' =>
      let done_ :=
        [Print ("
" ++ str_repeat 50 "=")%string;
         Print "✓ Documentation Generation Complete!";
         Print (str_repeat 50 "=")] in
      let readme_path := PROJECT_DIR ++ ["README.md"] in
      let report :=
        if os_path_exists s' readme_path then
          match (read_text readme_path s').2 with
          | Ret t =>
              [Print ("✓ README.md created successfully (" ++ nat_str (readlines_len t)
                      ++ " lines)")%string;
               Print ("✓ Location: " ++ path_str readme_path)%string]
          | Exc e => on_error (exc_str e)
          end
        else [Print "⚠ README.md not found in expected location"] in
      mkRun (banner ++ [Kickoff PROJECT_DIR] ++ done_ ++ report) 0
  end
  end.

(** A collaborator that fails on the code-analysis stage. *)
Definition collab_fail_at_2 (a : Agent) (c : StageContext) : StageResult :=
  if String.eqb (role a) "Code Analysis Specialist" then StageFailed "rate limit"
  else StageOk (role a).

(** A sample tree with one Python file. *)
Definition demo_fs : fs :=
  mkFS ∅ {[["calc.py"] := cps "import os
class A:
    def f(self): pass
  from x import y
"]} ∅.


(* ------------------------------------------------------------------ *)
(** ** [test_project/calculator.py] *)

(** The numbers the calculator is handed: Python's numeric protocol as far
    as [calculator.py] uses it ([+], [-], [*], [/], the test [b == 0] and
    [format(x, '')] in the f-string), each of which may raise ([TypeError]
    for operands that do not support it, [OverflowError] for a float
    result out of range, [ValueError] for an [int] past the digit limit of
    [str]).  The module is duck-typed, so its behaviour is stated for every
    such number type. *)
Class PyNum (Num : Type) := {
  num_add : Num → Num → outcome Num;
  num_sub : Num → Num → outcome Num;
  num_mul : Num → Num → outcome Num;
  num_truediv : Num → Num → outcome Num;
  num_eq_zero : Num → outcome bool;
  num_str : Num → outcome string
}.

Definition out_bind {A B} (m : outcome A) (k : A → outcome B) : outcome B :=
  match m with Ret a => k a | Exc e => Exc e end.

Module calculator.
Section calculator.
Context {Num : Type} `{PyNum Num}.

Definition add (a b : Num) : outcome Num := num_add a b.
Definition subtract (a b : Num) : outcome Num := num_sub a b.
Definition multiply (a b : Num) : outcome Num := num_mul a b.

Definition divide (a b : Num) : outcome Num :=
  match num_eq_zero b with
  | Exc e => Exc e
  | Ret true => Exc (ValueError "Cannot divide by zero")
  | Ret false => num_truediv a b
  end.

(** An instance of [Calculator]: its [history] list. *)
Record Calculator := mkCalculator { history : list string }.

(** [Calculator()] *)
Definition Calculator_init : Calculator := mkCalculator [].

(** [self.calculate(operation, a, b)]: the new state of [self] and the
    result or the exception raised.  The f-string renders [a], [b] and
    [result] in that order, before the [append]. *)
Definition calculate (self : Calculator) (operation : string) (a b : Num)
    : Calculator * outcome Num :=
  let result :=
    if String.eqb operation "add" then add a b
    else if String.eqb operation "subtract" then subtract a b
    else if String.eqb operation "multiply" then multiply a b
    else if String.eqb operation "divide" then divide a b
    else Exc (ValueError "Unknown operation") in
  match result with
  | Exc e => (self, Exc e)
  | Ret r =>
      let entry :=
        out_bind (num_str a) (fun sa =>
        out_bind (num_str b) (fun sb =>
        out_bind (num_str r) (fun sr =>
        Ret (operation ++ "(" ++ sa ++ ", " ++ sb ++ ") = " ++ sr)%string))) in
      match entry with
      | Exc e => (self, Exc e)
      | Ret en => (mkCalculator (history self ++ [en]), Ret r)
      end
  end.

(** [self.get_history()]: a copy of the list. *)
Definition get_history (self : Calculator) : list string := history self.

End calculator.
End calculator.

(* ------------------------------------------------------------------ *)
(** ** [test_project/utils.py]: [process_data] *)

Module utils.

(** The values the sample data holds: ints, bools, strings and [None]. *)
Inductive PyVal := VInt (z : Z) | VBool (b : bool) | VStr (s : string) | VNone.

(** A dict in insertion order, and the heap of dict objects the caller's
    list refers to: [process_data] mutates the caller's dicts in place. *)
Definition dict := list (string * PyVal).
Abbreviation loc := nat (only parsing).
Abbreviation heap := (gmap nat dict) (only parsing).

(** [d[k]] for a key that is present ([k in d]). *)
Fixpoint dict_get (k : string) (d : dict) : option PyVal :=
  match d with
  | [] => None
  | (k', v) :: r => if String.eqb k k' then Some v else dict_get k r
  end.

(** [d[k] = v]: updates in place, or appends a new key at the end. *)
Fixpoint dict_set (k : string) (v : PyVal) (d : dict) : dict :=
  match d with
  | [] => [(k, v)]
  | (k', v') :: r => if String.eqb k k' then (k', v) :: r else (k', v') :: dict_set k v r
  end.

(** [v > 0]; [None] when the comparison raises [TypeError] (a [str] or
    [None] against an [int]). *)
Definition gt_zero (v : PyVal) : option bool :=
  match v with
  | VInt z => Some (0 <? z)%Z
  | VBool b => Some b
  | VStr _ | VNone => None
  end.

(** The loop of [process_data]: the heap it leaves and the [processed]
    list it returns, or [None] when [TypeError] escapes (the mutations
    made so far remain).  Every element of the list is a live dict in
    Python; a dangling reference cannot occur and is skipped here. *)
Fixpoint process_data_loop (data : list loc) (processed : list loc) (h : heap)
    : heap * option (list loc) :=
  match data with
  | [] => (h, Some processed)
  | item :: rest =>
      match h !! item with
      | None => process_data_loop rest processed h
      | Some d =>
          match dict_get "value" d with
          | None => process_data_loop rest processed h
          | Some v =>
              match gt_zero v with
              | None => (h, None)
              | Some false => process_data_loop rest processed h
              | Some true =>
                  process_data_loop rest (processed ++ [item])
                    (<[item := dict_set "processed" (VBool true) d]> h)
              end
          end
      end
  end.

Definition process_data (data : list loc) (h : heap) : heap * option (list loc) :=
  process_data_loop data [] h.

(** The test of the [if]: ['value' in item and item['value'] > 0]
    holds (on a comparable value). *)
Definition selected (h : heap) (item : loc) : bool :=
  match h !! item with
  | Some d =>
      match dict_get "value" d with
      | Some v => bool_decide (gt_zero v = Some true)
      | None => false
      end
  | None => false
  end.

(** The comparison [item['value'] > 0] does not raise on this item
    (or is not reached). *)
Definition comparable (h : heap) (item : loc) : bool :=
  match h !! item with
  | Some d =>
      match dict_get "value" d with
      | Some v => match gt_zero v with Some _ => true | None => false end
      | None => true
      end
  | None => true
  end.

(** The [sample_data] of [test_project/main.py], as three dicts on the
    heap and the list referring to them. *)
Definition sample_heap : heap :=
  <[1 := [("id", VInt 1); ("value", VInt 10)]]>
  (<[2 := [("id", VInt 2); ("value", VInt (-5))]]>
   (<[3 := [("id", VInt 3); ("value", VInt 20)]]> ∅)).
Definition sample_data : list loc := [1; 2; 3].

End utils.

(* ================================================================== *)
(** * Proofs *)

Example nat_str_42 : nat_str 42 = "42". Proof. reflexivity. Qed.
Example utf8_encode_euro : utf8_encode [0x20AC%Z] = Some [0xE2; 0x82; 0xAC]%Z.
Proof. reflexivity. Qed.
Example utf8_decode_euro : utf8_decode [0xE2; 0x82; 0xAC]%Z = Some [0x20AC%Z].
Proof. reflexivity. Qed.

Example FileWriteTool_run_nested :
  FileWriteTool_run ["out"; "docs"; "README.md"] (cps "hi") fs0 =
  (mkFS {[["out"; "docs"]; ["out"]]} {[["out"; "docs"; "README.md"] := [104; 105]%Z]} ∅,
   Ret "File 'out/docs/README.md' successfully written with 2 characters.").
Proof. vm_compute. reflexivity. Qed.

(* ------------------------------------------------------------------ *)
(** ** Facts about the file-system primitives *)

Ltac py_unfold :=
  unfold os_mkdir, open_w, file_write, pbind, pget, pput, praise, pret, try_except;
  cbv beta iota zeta.

Lemma is_dir_true (s : fs) (p : path) : is_dir s p = true ↔ p = [] ∨ p ∈ fs_dirs s.
Proof. unfold is_dir. rewrite orb_true_iff, !bool_decide_eq_true. done. Qed.

Lemma is_dir_false (s : fs) (p : path) : is_dir s p = false ↔ p ≠ [] ∧ p ∉ fs_dirs s.
Proof.
  rewrite <- not_true_iff_false, is_dir_true. tauto.
Qed.

Lemma is_file_false (s : fs) (p : path) : is_file s p = false ↔ fs_files s !! p = None.
Proof.
  unfold is_file. rewrite bool_decide_eq_false.
  destruct (fs_files s !! p); split; intros H; try done.
  exfalso. apply H. eexists. done.
Qed.

Lemma rev_ne_nil {A} (l : list A) : l ≠ [] → rev l ≠ [].
Proof. intros Hl E. apply Hl. rewrite <- (rev_involutive l), E. done. Qed.

Lemma os_path_exists_ne (s : fs) (p : path) :
  p ≠ [] → os_path_exists s p = negb (has_nul p) && (is_dir s p || is_file s p).
Proof. intros Hp. unfold os_path_exists. rewrite (bool_decide_eq_false_2 (p = [])) by done. cbn [negb]. rewrite andb_true_r. done. Qed.


Lemma has_nul_app (p1 p2 : path) : has_nul (p1 ++ p2) = has_nul p1 || has_nul p2.
Proof. unfold has_nul. apply existsb_app. Qed.

Lemma prefix_snoc_inv (q l : path) (x : string) :
  q `prefix_of` l ++ [x] → q = l ++ [x] ∨ q `prefix_of` l.
Proof.
  intros [k Hk]. destruct k as [|y k] using rev_ind.
  - left. rewrite app_nil_r in Hk. done.
  - right. rewrite app_assoc in Hk. apply app_inj_tail in Hk as [Hk _].
    exists k. done.
Qed.

Lemma ancestor_is_file_false (s : fs) (p : path) :
  (∀ q, q `prefix_of` p → q ≠ [] → q ≠ p → fs_files s !! q = None) →
  ancestor_is_file s p = false.
Proof.
  intros Hf. unfold ancestor_is_file.
  apply not_true_iff_false. rewrite existsb_exists.
  intros [n [Hn Hfile]]. apply in_seq in Hn.
  assert (Hlen : length (take n p) = n) by (rewrite length_take; lia).
  apply not_false_iff_true in Hfile. apply Hfile, is_file_false.
  apply Hf.
  - apply prefix_take.
  - intros E. rewrite E in Hlen. simpl in Hlen. lia.
  - intros E. rewrite E in Hlen. lia.
Qed.

Lemma os_mkdir_ok (s : fs) (p : path) :
  p ≠ [] → has_nul p = false → p ∉ fs_dirs s → fs_files s !! p = None →
  (∀ q, q `prefix_of` p → q ≠ [] → q ≠ p → fs_files s !! q = None) →
  is_dir s (os_path_dirname p) = true → os_path_dirname p ∉ fs_locked s →
  os_mkdir p s = (mkFS ({[p]} ∪ fs_dirs s) (fs_files s) (fs_locked s), Ret tt).
Proof.
  intros Hne Hnul Hd Hf Hanc Hpar Hlock. py_unfold.
  assert (E1 : is_dir s p = false) by (apply is_dir_false; done).
  assert (E2 : is_file s p = false) by (apply is_file_false; done).
  rewrite Hnul, (bool_decide_eq_false_2 (p = [])) by done. cbv iota.
  rewrite E1, E2, ancestor_is_file_false, Hpar by done. simpl.
  rewrite bool_decide_eq_false_2 by done. done.
Qed.

Lemma open_w_ok (s : fs) (p : path) :
  has_nul p = false → is_dir s p = false →
  (∀ q, q `prefix_of` p → q ≠ [] → q ≠ p → fs_files s !! q = None) →
  is_dir s (os_path_dirname p) = true → os_path_dirname p ∉ fs_locked s →
  open_w p s = (mkFS (fs_dirs s) (<[p := []]> (fs_files s)) (fs_locked s), Ret tt).
Proof.
  intros Hnul Hd Hanc Hpar Hlock. py_unfold.
  assert (Hne : p ≠ []) by (apply is_dir_false in Hd; tauto).
  rewrite Hnul, (bool_decide_eq_false_2 (p = [])) by done. cbv iota.
  rewrite Hd, ancestor_is_file_false, Hpar by done. simpl.
  rewrite bool_decide_eq_false_2 by done. done.
Qed.

Lemma dirname_snoc (l : path) (x : string) : os_path_dirname (l ++ [x]) = l.
Proof. apply removelast_last. Qed.

Lemma prefix_strict_length (q p : path) :
  q `prefix_of` p → q ≠ p → length q < length p.
Proof.
  intros [k ->] Hne. rewrite length_app.
  destruct k; [rewrite app_nil_r in Hne; done | simpl; lia].
Qed.

(** [os.makedirs] on a path whose components are free: it succeeds, adds
    only prefixes of the path, the path among them, and, on a well-formed
    tree, leaves every non-empty prefix a directory. *)
Lemma makedirs_rev_ok (rp : list string) (s : fs) :
  rp ≠ [] →
  has_nul (rev rp) = false →
  (∀ q, q `prefix_of` rev rp → q ≠ [] → fs_files s !! q = None) →
  (∀ q, q `prefix_of` rev rp → q ≠ rev rp → q ∉ fs_locked s) →
  rev rp ∉ fs_dirs s →
  ∃ D : gset path,
    makedirs_rev rp s = (mkFS (D ∪ fs_dirs s) (fs_files s) (fs_locked s), Ret tt) ∧
    rev rp ∈ D ∧
    (∀ q, q ∈ D → q `prefix_of` rev rp ∧ q ≠ []) ∧
    (wf s → ∀ q, q `prefix_of` rev rp → q ≠ [] → q ∈ D ∪ fs_dirs s).
Proof.
  revert s. induction rp as [|t rh IH]; intros s Hne Hnul Hfiles Hlock Hdir; [done|].
  change (rev (t :: rh)) with (rev rh ++ [t]) in *.
  set (p := rev rh ++ [t]) in *.
  assert (Hp : p ≠ []) by (subst p; destruct (rev rh); done).
  assert (Hnul_h : has_nul (rev rh) = false).
  { subst p. rewrite has_nul_app in Hnul. apply orb_false_iff in Hnul. tauto. }
  assert (Hanc : ∀ q, q `prefix_of` p → q ≠ [] → q ≠ p → fs_files s !! q = None)
    by (intros; apply Hfiles; done).
  assert (Hlock_h : rev rh ∉ fs_locked s).
  { apply Hlock; [subst p; apply prefix_app_r; done|].
    subst p. intros E. apply (f_equal length) in E. rewrite length_app in E. simpl in E. lia. }
  cbn [makedirs_rev]. unfold pbind at 1, pget. cbv beta iota.
  change (rev (t :: rh)) with p.
  destruct (bool_decide (rh ≠ []) && negb (os_path_exists s (rev rh))) eqn:E.
  - apply andb_true_iff in E as [E1 E2].
    apply bool_decide_eq_true in E1. apply negb_true_iff in E2.
    rewrite os_path_exists_ne in E2 by (apply rev_ne_nil; done). rewrite Hnul_h in E2. simpl in E2.
    apply orb_false_iff in E2 as [E2 _]. apply is_dir_false in E2 as [_ E2].
    destruct (IH s) as (D1 & Hrun & HinD1 & HD1 & Hwf1).
    + done.
    + done.
    + intros q Hq Hq'. apply Hfiles; [subst p; apply prefix_app_r|]; done.
    + intros q Hq Hq'. apply Hlock; [subst p; apply prefix_app_r; done|].
      intros ->. apply (prefix_snoc_not (rev rh) t). done.
    + done.
    + unfold pbind, try_except. rewrite Hrun. cbv beta iota.
      fold p.
      rewrite os_mkdir_ok; try done.
      * exists ({[p]} ∪ D1). split; [cbn [fs_dirs fs_files fs_locked]; rewrite union_assoc_L; reflexivity|].
        split; [set_solver|]. split.
        -- intros q Hq. apply elem_of_union in Hq as [Hq|Hq].
           ++ apply elem_of_singleton in Hq. subst q. done.
           ++ destruct (HD1 q Hq) as [H1 H2]. split; [|done].
              subst p. apply prefix_app_r. done.
        -- intros Hwf q Hq Hq'. subst p. apply prefix_snoc_inv in Hq as [->|Hq]; [set_solver|].
           specialize (Hwf1 Hwf q Hq Hq'). set_solver.
      * simpl. intros Hin. apply elem_of_union in Hin as [Hin|Hin]; [|done].
        destruct (HD1 p Hin) as [Hpre _]. subst p.
        apply (prefix_snoc_not (rev rh) t). done.
      * apply Hfiles; done.
      * simpl. subst p. rewrite dirname_snoc. apply is_dir_true. right. set_solver.
      * simpl. subst p. rewrite dirname_snoc. done.
  - assert (Hpar : is_dir s (rev rh) = true).
    { destruct rh as [|y rh']; [done|].
      apply andb_false_iff in E as [E|E].
      - apply bool_decide_eq_false in E. exfalso. apply E. done.
      - apply negb_false_iff in E. rewrite os_path_exists_ne in E by (apply rev_ne_nil; done).
        rewrite Hnul_h in E. simpl in E. apply orb_true_iff in E as [E|E]; [done|].
        exfalso. apply not_false_iff_true in E. apply E, is_file_false.
        apply Hfiles; [subst p; apply prefix_app_r; done|].
        simpl. intros F. destruct (rev rh'); done. }
    unfold pbind, pret. cbv beta iota.
    rewrite os_mkdir_ok; try done.
    + exists {[p]}. split; [done|]. split; [set_solver|]. split.
      * intros q Hq. apply elem_of_singleton in Hq. subst q. done.
      * intros Hwf q Hq Hq'. subst p. apply prefix_snoc_inv in Hq as [->|Hq]; [set_solver|].
        apply elem_of_union_r.
        apply is_dir_true in Hpar as [Hnil|Hpar].
        -- rewrite Hnil in Hq. apply prefix_nil_inv in Hq. done.
        -- destruct (decide (q = rev rh)) as [->|Hneq]; [done|].
           apply (Hwf (rev rh) q); [left|..]; done.
    + apply Hfiles; done.
    + subst p. rewrite dirname_snoc. done.
    + subst p. rewrite dirname_snoc. done.
Qed.


(** The run of [FileWriteTool._run] on a writable path: the parent
    directories are prepared, the file is opened, then the content is
    encoded and stored, or the encoding raises. *)
Lemma FileWriteTool_run_writable_full (s : fs) (p : path) (content : pystr) :
  writable s p →
  ∃ s1 : fs,
    (p ∉ fs_dirs s1) ∧
    fs_files s1 = fs_files s ∧ fs_locked s1 = fs_locked s ∧
    fs_dirs s ⊆ fs_dirs s1 ∧
    is_dir s1 (os_path_dirname p) = true ∧
    (wf s → ∀ q, q `prefix_of` os_path_dirname p → q ≠ [] → q ∈ fs_dirs s1) ∧
    FileWriteTool_run p content s =
      match utf8_encode content with
      | Some bs => (mkFS (fs_dirs s1) (<[p := bs]> (fs_files s)) (fs_locked s),
                    Ret (write_ok_msg p content))
      | None => (mkFS (fs_dirs s1) (<[p := []]> (fs_files s)) (fs_locked s),
                 Exc (UnicodeEncodeError content))
      end.
Proof.
  intros (Hne & Hnul & Hdir & Hfiles & Hlock).
  destruct (exists_last Hne) as (d & x & Hp). subst p.
  assert (Hnul_d : has_nul d = false).
  { rewrite has_nul_app in Hnul. apply orb_false_iff in Hnul. tauto. }
  assert (Hstrict : ∀ q, q `prefix_of` d → q ≠ d ++ [x]).
  { intros q Hq ->. apply (prefix_snoc_not d x). done. }
  (* the state once the parent directory has been dealt with *)
  assert (Hprep : ∃ s1 : fs,
    (if bool_decide (d ≠ []) && negb (os_path_exists s d)
     then os_makedirs d else pret tt) s = (s1, Ret tt) ∧
    fs_files s1 = fs_files s ∧ fs_locked s1 = fs_locked s ∧
    fs_dirs s ⊆ fs_dirs s1 ∧ ((d ++ [x]) ∉ fs_dirs s1) ∧
    is_dir s1 d = true ∧
    (wf s → ∀ q, q `prefix_of` d → q ≠ [] → q ∈ fs_dirs s1)).
  { destruct (bool_decide (d ≠ []) && negb (os_path_exists s d)) eqn:E.
    - apply andb_true_iff in E as [E1 E2].
      apply bool_decide_eq_true in E1. apply negb_true_iff in E2.
      rewrite os_path_exists_ne in E2 by done. rewrite Hnul_d in E2. simpl in E2.
      apply orb_false_iff in E2 as [E2 _]. apply is_dir_false in E2 as [_ E2].
      unfold os_makedirs.
      destruct (makedirs_rev_ok (rev d) s) as (D & Hrun & HinD & HD & Hwf);
        rewrite ?rev_involutive.
      + intros F. apply E1. rewrite <- (rev_involutive d), F. done.
      + done.
      + intros q Hq Hq'. apply Hfiles; [apply prefix_app_r|..|apply Hstrict]; done.
      + intros q Hq Hq'. apply Hlock; [apply prefix_app_r|apply Hstrict]; done.
      + done.
      + rewrite rev_involutive in HinD, HD, Hwf.
        eexists. split; [exact Hrun|]. cbn [fs_dirs fs_files fs_locked].
        split; [done|]. split; [done|]. split; [set_solver|]. split.
        * intros Hin. apply elem_of_union in Hin as [Hin|Hin]; [|done].
          destruct (HD _ Hin) as [Hpre _]. apply (prefix_snoc_not d x). done.
        * split; [apply is_dir_true; right; set_solver|]. done.
    - exists s. split; [done|]. do 4 (split; [done|]).
      assert (Hd : is_dir s d = true).
      { destruct d as [|y d']; [done|].
        apply andb_false_iff in E as [E|E].
        - apply bool_decide_eq_false in E. exfalso. apply E. done.
        - apply negb_false_iff in E. rewrite os_path_exists_ne in E by done.
          rewrite Hnul_d in E. simpl in E. apply orb_true_iff in E as [E|E]; [done|].
          exfalso. apply not_false_iff_true in E. apply E, is_file_false.
          apply Hfiles; [apply prefix_app_r; done|done|apply Hstrict; done]. }
      split; [done|].
      intros Hwf q Hq Hq'. apply is_dir_true in Hd as [->|Hd].
      + apply prefix_nil_inv in Hq. done.
      + destruct (decide (q = d)) as [->|Hneq]; [done|].
        apply (Hwf d q); [left|..]; done. }
  destruct Hprep as (s1 & Hrun & Hf1 & Hl1 & Hsub & Hdir1 & Hpar1 & Hwf1).
  exists s1. rewrite dirname_snoc.
  do 6 (split; [done|]).
  unfold FileWriteTool_run, try_except, pbind at 1, pget. cbv beta iota zeta.
  rewrite dirname_snoc. unfold pbind at 1. rewrite Hrun. cbv beta iota.
  unfold pbind at 1. rewrite open_w_ok.
  - unfold pbind at 1, file_write, pbind, pget, pput, praise, pret. cbv beta iota.
    cbn [fs_dirs fs_files fs_locked]. rewrite lookup_insert_eq. simpl.
    rewrite Hf1, Hl1.
    destruct (utf8_encode content); simpl; [|done].
    rewrite insert_insert_eq. done.
  - done.
  - apply is_dir_false. split; [destruct d; done|done].
  - intros q Hq Hq' Hq''. rewrite Hf1. apply Hfiles; done.
  - rewrite dirname_snoc. done.
  - rewrite dirname_snoc, Hl1. apply Hlock; [apply prefix_app_r; done|apply Hstrict; done].
Qed.

Lemma FileWriteTool_run_writable (s : fs) (p : path) (content : pystr) :
  writable s p →
  ∃ s1 : fs,
    fs_files s1 = fs_files s ∧ fs_locked s1 = fs_locked s ∧
    fs_dirs s ⊆ fs_dirs s1 ∧
    is_dir s1 (os_path_dirname p) = true ∧
    (wf s → ∀ q, q `prefix_of` os_path_dirname p → q ≠ [] → q ∈ fs_dirs s1) ∧
    FileWriteTool_run p content s =
      match utf8_encode content with
      | Some bs => (mkFS (fs_dirs s1) (<[p := bs]> (fs_files s)) (fs_locked s),
                    Ret (write_ok_msg p content))
      | None => (mkFS (fs_dirs s1) (<[p := []]> (fs_files s)) (fs_locked s),
                 Exc (UnicodeEncodeError content))
      end.
Proof.
  intros Hw. destruct (FileWriteTool_run_writable_full s p content Hw) as (s1 & _ & H).
  exists s1. exact H.
Qed.

Lemma utf8_encode_cp_None (c : Z) : utf8_encode_cp c = None → is_surrogate c = true.
Proof.
  unfold utf8_encode_cp.
  destruct (c <? 0x80)%Z, (c <? 0x800)%Z, (is_surrogate c), (c <? 0x10000)%Z; done.
Qed.

Lemma utf8_encode_None (content : pystr) :
  utf8_encode content = None → Exists (fun c => is_surrogate c = true) content.
Proof.
  induction content as [|c r IH]; simpl; [done|].
  destruct (utf8_encode_cp c) eqn:E1.
  - destruct (utf8_encode r); [done|]. intros _. right. apply IH. done.
  - intros _. left. apply utf8_encode_cp_None. done.
Qed.

Lemma utf8_encode_Some (content : pystr) :
  Forall (fun c => is_surrogate c = false) content → is_Some (utf8_encode content).
Proof.
  intros Hall. destruct (utf8_encode content) eqn:E; [eexists; done|].
  apply utf8_encode_None in E. rewrite Exists_exists in E.
  rewrite Forall_forall in Hall. destruct E as (c & Hc & Hs).
  rewrite Hall in Hs; done.
Qed.

Example writable_out_readme : writable fs0 ["out"; "README.md"].
Proof.
  unfold writable. split; [done|]. split; [done|]. split; [set_solver|].
  split; [intros; apply lookup_empty|]. intros; set_solver.
Qed.

(* ------------------------------------------------------------------ *)
(** ** Claims about [FileWriteTool._run] *)

(** C4: on a writable path, [FileWriteTool._run] creates or overwrites the
    file with exactly the UTF-8 bytes of a (surrogate-free, non-empty)
    content, leaves every other file as it was, and returns the success
    message carrying [len(content)]. *)
Theorem FileWriteTool_write_exact (s : fs) (p : path) (content : pystr) :
  writable s p →
  content ≠ [] →
  Forall (fun c => is_surrogate c = false) content →
  ∃ bs : list Z,
    utf8_encode content = Some bs ∧
    fs_files (FileWriteTool_run p content s).1 !! p = Some bs ∧
    (∀ q, q ≠ p → fs_files (FileWriteTool_run p content s).1 !! q = fs_files s !! q) ∧
    (FileWriteTool_run p content s).2 =
      Ret ("File '" ++ path_str p ++ "' successfully written with "
           ++ nat_str (length content) ++ " characters.")%string.
Proof.
  intros Hw _ Hvalid.
  destruct (utf8_encode_Some content Hvalid) as [bs Hbs].
  destruct (FileWriteTool_run_writable s p content Hw)
    as (s1 & _ & _ & _ & _ & _ & Hrun).
  rewrite Hbs in Hrun. rewrite Hrun. cbn [fst snd fs_files].
  exists bs. split; [done|]. split; [apply lookup_insert_eq|]. split; [|done].
  intros q Hq. apply lookup_insert_ne. done.
Qed.

Lemma FileWriteTool_write_exact_witness :
  writable fs0 ["out"; "README.md"] ∧ cps "hi" ≠ [] ∧
  Forall (fun c => is_surrogate c = false) (cps "hi") ∧
  ∃ bs : list Z,
    utf8_encode (cps "hi") = Some bs ∧
    fs_files (FileWriteTool_run ["out"; "README.md"] (cps "hi") fs0).1
      !! ["out"; "README.md"] = Some bs ∧
    (∀ q, q ≠ ["out"; "README.md"] →
       fs_files (FileWriteTool_run ["out"; "README.md"] (cps "hi") fs0).1 !! q
       = fs_files fs0 !! q) ∧
    (FileWriteTool_run ["out"; "README.md"] (cps "hi") fs0).2 =
      Ret ("File '" ++ path_str ["out"; "README.md"] ++ "' successfully written with "
           ++ nat_str (length (cps "hi")) ++ " characters.")%string.
Proof.
  split; [exact writable_out_readme|]. split; [discriminate|].
  split; [repeat constructor|].
  apply (FileWriteTool_write_exact fs0 ["out"; "README.md"] (cps "hi")).
  - exact writable_out_readme.
  - discriminate.
  - repeat constructor.
Defined.

(** C5 (counterexample): a path with an embedded NUL byte makes [open]
    raise [ValueError], which [except IOError] does not catch: the call
    raises past the tool's boundary instead of returning a failure string. *)
Lemma FileWriteTool_nul_path_raises :
  (FileWriteTool_run [("bad" ++ String.String Ascii.zero "name.md")%string] (cps "x") fs0).2
  = Exc (ValueError "embedded null byte").
Proof. vm_compute. reflexivity. Qed.

(** The same escape on a valid path: a lone surrogate in the content makes
    [f.write] raise [UnicodeEncodeError], also not an [IOError]. *)
Lemma FileWriteTool_surrogate_raises :
  (FileWriteTool_run ["notes.txt"] [0xD800%Z] fs0).2 = Exc (UnicodeEncodeError [0xD800%Z]).
Proof. vm_compute. reflexivity. Qed.

(** C6: when the parent directory of a writable path is missing (in a
    well-formed tree), [FileWriteTool._run] creates the whole missing chain
    of directories and the file; the only way the call can then fail is
    the encoding of a surrogate in the content, never the missing
    directory. *)
Theorem FileWriteTool_creates_parents (s : fs) (p : path) (content : pystr) :
  wf s → writable s p →
  os_path_exists s (os_path_dirname p) = false →
  (∀ q, q `prefix_of` os_path_dirname p → is_dir (FileWriteTool_run p content s).1 q = true) ∧
  is_Some (fs_files (FileWriteTool_run p content s).1 !! p) ∧
  ((FileWriteTool_run p content s).2 = Ret (write_ok_msg p content) ∨
   ((FileWriteTool_run p content s).2 = Exc (UnicodeEncodeError content) ∧
    Exists (fun c => is_surrogate c = true) content)).
Proof.
  intros Hwf Hw _.
  destruct (FileWriteTool_run_writable s p content Hw)
    as (s1 & _ & _ & _ & _ & Hchain & Hrun).
  rewrite Hrun.
  destruct (utf8_encode content) eqn:E; cbn [fst snd fs_dirs fs_files].
  - split; [|split; [eexists; apply lookup_insert_eq|left; done]].
    intros q Hq. apply is_dir_true. simpl.
    destruct (decide (q = [])) as [->|Hne]; [left; done|right].
    apply Hchain; done.
  - split; [|split; [eexists; apply lookup_insert_eq|right; split; [done|]]].
    + intros q Hq. apply is_dir_true. simpl.
      destruct (decide (q = [])) as [->|Hne]; [left; done|right].
      apply Hchain; done.
    + apply utf8_encode_None. done.
Qed.


(* ------------------------------------------------------------------ *)
(** ** Facts about the scanning helpers *)

Lemma is_prefix_spec (pre s : pystr) :
  is_prefix pre s = true ↔ ∃ post, s = pre ++ post.
Proof.
  revert s. induction pre as [|a pre IH]; intros s; simpl.
  - split; [intros _; exists s; done|done].
  - destruct s as [|b s].
    + split; [done|]. intros [post H]. done.
    + rewrite andb_true_iff, Z.eqb_eq, IH. split.
      * intros [-> [post ->]]. exists post. done.
      * intros [post H]. injection H as -> ->. split; [done|]. exists post. done.
Qed.

Lemma contains_spec (needle hay : pystr) :
  contains needle hay = true ↔ ∃ pre post, hay = pre ++ needle ++ post.
Proof.
  induction hay as [|c hay IH]; simpl; rewrite orb_true_iff, is_prefix_spec.
  - split.
    + intros [[post H]|H]; [|done]. exists [], post. done.
    + intros (pre & post & H). left. exists post.
      destruct pre; [done|]. done.
  - rewrite IH. split.
    + intros [[post H]|(pre & post & H)].
      * exists [], post. done.
      * exists (c :: pre), post. rewrite H. done.
    + intros (pre & post & H). destruct pre as [|d pre].
      * left. exists post. done.
      * right. injection H as _ H. exists pre, post. done.
Qed.

Lemma import_lines_filter (lines : list pystr) :
  import_lines lines =
  map py_strip (List.filter (fun l => startswith_any (py_strip l) import_prefixes) lines).
Proof.
  induction lines as [|l ls IH]; cbn [import_lines List.filter]; [done|].
  destruct (startswith_any (py_strip l) import_prefixes); cbn [map]; rewrite IH; done.
Qed.

Lemma import_lines_marked (lines : list pystr) :
  Forall (fun x => startswith_any x import_prefixes = true) (import_lines lines).
Proof.
  induction lines as [|l ls IH]; cbn [import_lines]; [constructor|].
  destruct (startswith_any (py_strip l) import_prefixes) eqn:E; [constructor; done|done].
Qed.

Lemma split_on_length (sep : Z) (s : pystr) :
  length (split_on sep s) = length (List.filter (fun c => (c =? sep)%Z) s) + 1.
Proof.
  induction s as [|c r IH]; simpl; [done|].
  destruct (c =? sep)%Z; simpl.
  - rewrite IH. done.
  - destruct (split_on sep r) as [|w ws]; simpl in *; lia.
Qed.

Lemma CodeAnalyzerTool_run_read (s s' : fs) (p : path) (content : pystr) :
  read_text p s = (s', Ret content) →
  CodeAnalyzerTool_run p s = (s', Ret (AnalysisJson (analyze_content p content))).
Proof.
  intros H. unfold CodeAnalyzerTool_run, try_except, pbind. rewrite H. done.
Qed.

Example demo_fs_readable :
  read_text ["calc.py"] demo_fs =
  (demo_fs, Ret (cps "import os
class A:
    def f(self): pass
  from x import y
")).
Proof. vm_compute. reflexivity. Qed.

Lemma read_text_empty_file (s s' : fs) (p : path) (content : pystr) :
  read_text p s = (s', Ret content) → fs_files s !! p = Some [] → content = [].
Proof.
  intros H Hf. unfold read_text, pbind, pget, praise, pret in H. cbv beta iota in H.
  destruct (has_nul p), (bool_decide (p = [])), (is_dir s p), (ancestor_is_file s p); try done.
  rewrite Hf in H. simpl in H. injection H as _ <-. done.
Qed.

(* ------------------------------------------------------------------ *)
(** ** Claims about [CodeAnalyzerTool._run] *)

(** C7: on a readable file, [has_classes] is true exactly when the text
    contains the marker ["class "], and false when it contains none. *)
Theorem CodeAnalyzerTool_has_classes (s s' : fs) (p : path) (content : pystr) :
  read_text p s = (s', Ret content) →
  ∃ a, CodeAnalyzerTool_run p s = (s', Ret (AnalysisJson a)) ∧
       (an_has_classes a = true ↔ ∃ pre post, content = pre ++ cps "class " ++ post).
Proof.
  intros H. eexists. split; [apply CodeAnalyzerTool_run_read; exact H|].
  apply contains_spec.
Qed.

Lemma CodeAnalyzerTool_has_classes_witness :
  read_text ["calc.py"] demo_fs = (demo_fs, Ret (cps "import os
class A:
    def f(self): pass
  from x import y
")) ∧
  ∃ a, CodeAnalyzerTool_run ["calc.py"] demo_fs = (demo_fs, Ret (AnalysisJson a)) ∧
       (an_has_classes a = true ↔ ∃ pre post, cps "import os
class A:
    def f(self): pass
  from x import y
" = pre ++ cps "class " ++ post).
Proof.
  split; [vm_compute; reflexivity|].
  apply CodeAnalyzerTool_has_classes. vm_compute. reflexivity.
Defined.

(** C8: on a readable file, the [imports] list holds the stripped form of
    exactly those lines whose stripped form starts with ['import '],
    ['from '], ['require'] or ['include'], in file order. *)
Theorem CodeAnalyzerTool_imports (s s' : fs) (p : path) (content : pystr) :
  read_text p s = (s', Ret content) →
  ∃ a, CodeAnalyzerTool_run p s = (s', Ret (AnalysisJson a)) ∧
       an_imports a =
         map py_strip (List.filter (fun l => startswith_any (py_strip l) import_prefixes)
                         (split_on 10 content)) ∧
       Forall (fun x => startswith_any x import_prefixes = true) (an_imports a).
Proof.
  intros H. eexists. split; [apply CodeAnalyzerTool_run_read; exact H|].
  split; [apply import_lines_filter|apply import_lines_marked].
Qed.

Lemma CodeAnalyzerTool_imports_witness :
  read_text ["calc.py"] demo_fs = (demo_fs, Ret (cps "import os
class A:
    def f(self): pass
  from x import y
")) ∧
  ∃ a, CodeAnalyzerTool_run ["calc.py"] demo_fs = (demo_fs, Ret (AnalysisJson a)) ∧
       an_imports a =
         map py_strip (List.filter (fun l => startswith_any (py_strip l) import_prefixes)
                         (split_on 10 (cps "import os
class A:
    def f(self): pass
  from x import y
"))) ∧
       Forall (fun x => startswith_any x import_prefixes = true) (an_imports a).
Proof.
  split; [vm_compute; reflexivity|].
  apply CodeAnalyzerTool_imports. vm_compute. reflexivity.
Defined.

(** C10: on a readable file, [lines] is the number of ["\n"] in the text
    read plus one; a zero-byte file reports 1. *)
Theorem CodeAnalyzerTool_line_count (s s' : fs) (p : path) (content : pystr) :
  read_text p s = (s', Ret content) →
  ∃ a, CodeAnalyzerTool_run p s = (s', Ret (AnalysisJson a)) ∧
       an_lines a = length (List.filter (fun c => (c =? 10)%Z) content) + 1 ∧
       (fs_files s !! p = Some [] → an_lines a = 1).
Proof.
  intros H. eexists. split; [apply CodeAnalyzerTool_run_read; exact H|].
  cbn [analyze_content an_lines]. split; [apply split_on_length|].
  intros Hf. rewrite (read_text_empty_file s s' p content H Hf). done.
Qed.

Lemma CodeAnalyzerTool_line_count_witness :
  read_text ["empty.py"] (mkFS ∅ {[["empty.py"] := []]} ∅)
    = (mkFS ∅ {[["empty.py"] := []]} ∅, Ret []) ∧
  ∃ a, CodeAnalyzerTool_run ["empty.py"] (mkFS ∅ {[["empty.py"] := []]} ∅)
         = (mkFS ∅ {[["empty.py"] := []]} ∅, Ret (AnalysisJson a)) ∧
       an_lines a = length (List.filter (fun c => (c =? 10)%Z) []) + 1 ∧
       (fs_files (mkFS ∅ {[["empty.py"] := []]} ∅) !! ["empty.py"] = Some [] → an_lines a = 1).
Proof.
  split; [vm_compute; reflexivity|].
  apply CodeAnalyzerTool_line_count. vm_compute. reflexivity.
Defined.

Lemma wf_fs0 : wf fs0.
Proof. intros q q' [H|[v H]] _ _ _; [set_solver|simpl in H; rewrite lookup_empty in H; done]. Qed.

Lemma writable_fs0 (p : path) : p ≠ [] → has_nul p = false → writable fs0 p.
Proof.
  intros Hne Hnul. split; [done|]. split; [done|]. split; [set_solver|].
  split; [intros; apply lookup_empty|]. intros; set_solver.
Qed.

Lemma FileWriteTool_creates_parents_witness :
  wf fs0 ∧ writable fs0 ["out"; "docs"; "README.md"] ∧
  os_path_exists fs0 (os_path_dirname ["out"; "docs"; "README.md"]) = false ∧
  (∀ q, q `prefix_of` os_path_dirname ["out"; "docs"; "README.md"] →
     is_dir (FileWriteTool_run ["out"; "docs"; "README.md"] (cps "hi") fs0).1 q = true) ∧
  is_Some (fs_files (FileWriteTool_run ["out"; "docs"; "README.md"] (cps "hi") fs0).1
             !! ["out"; "docs"; "README.md"]) ∧
  ((FileWriteTool_run ["out"; "docs"; "README.md"] (cps "hi") fs0).2
     = Ret (write_ok_msg ["out"; "docs"; "README.md"] (cps "hi")) ∨
   ((FileWriteTool_run ["out"; "docs"; "README.md"] (cps "hi") fs0).2 = Exc (UnicodeEncodeError (cps "hi")) ∧
    Exists (fun c => is_surrogate c = true) (cps "hi"))).
Proof.
  split; [exact wf_fs0|].
  split; [apply writable_fs0; [discriminate|vm_compute; reflexivity]|].
  split; [vm_compute; reflexivity|].
  apply FileWriteTool_creates_parents.
  - exact wf_fs0.
  - apply writable_fs0; [discriminate|vm_compute; reflexivity].
  - vm_compute. reflexivity.
Defined.

(* ------------------------------------------------------------------ *)
(** ** Claims about the pipeline *)

Ltac split_collab H :=
  match type of H with
  | context [match ?c with StageOk _ => _ | StageFailed _ => _ end] =>
      let E := fresh "E" in destruct c eqn:E
  end.

Ltac split_collab_goal :=
  match goal with
  | |- context [match ?c with StageOk _ => _ | StageFailed _ => _ end] =>
      let E := fresh "E" in destruct c eqn:E
  end.

Ltac stage_ok :=
  split; [apply list_elem_of_In; simpl; tauto|];
  split; [reflexivity|];
  simpl; repeat constructor.

(** C1: in every run of [documentation_crew], whatever the collaborator
    answers, each executed stage receives, in the order of its [context]
    list, exactly the captured results of the stages listed there and of
    no other stage; the lists are [] for stage 1, [1] for stage 2, [1; 2]
    for stage 3 and [3] for stage 4. *)
Theorem crew_context_threading (collab : Agent → StageContext → StageResult) (pd : string) :
  map (fun t => (task_id t, context t)) documentation_crew
    = [(1, []); (2, [1]); (3, [1; 2]); (4, [3])] ∧
  ∀ ev, ev ∈ (kickoff_crew collab pd).1 →
    ∃ t, t ∈ documentation_crew ∧ task_id t = ev_stage ev ∧
      Forall2 (fun d '(d', txt) => d' = d ∧ output_of (kickoff_crew collab pd).1 d = Some txt)
              (context t) (ctx_upstream (ev_context ev)).
Proof.
  split; [reflexivity|].
  unfold kickoff_crew. simpl.
  intros ev Hev.
  repeat (rewrite ?lookup_insert, ?lookup_empty in Hev |- *; simpl in Hev |- *; split_collab Hev).
  all: apply list_elem_of_In in Hev; simpl in Hev.
  all: repeat (destruct Hev as [<-|Hev]; [|]); try contradiction.
  all: first [ exists structure_analysis_task; stage_ok
             | exists code_analysis_task; stage_ok
             | exists documentation_task; stage_ok
             | exists review_task; stage_ok ].
Qed.

(** C2: in every run of [documentation_crew], if the collaborator fails
    on stage [k], the run ends there: the overall outcome is a failure
    naming stage [k] with the collaborator's reason, and the stages that
    ran are exactly 1, ..., k, each once and in order (no later stage, no
    retry). *)
Theorem crew_failure_aborts (collab : Agent → StageContext → StageResult) (pd : string)
    (k : nat) (r : string) :
  (∃ ev, ev ∈ (kickoff_crew collab pd).1 ∧ ev_stage ev = k ∧ ev_result ev = StageFailed r) →
  (kickoff_crew collab pd).2 = Failed k r ∧
  map ev_stage (kickoff_crew collab pd).1 = seq 1 k.
Proof.
  intros (ev & Hev & Hk & Hr). revert Hev.
  unfold kickoff_crew. simpl.
  repeat (rewrite ?lookup_insert, ?lookup_empty; simpl; split_collab_goal).
  all: intros Hev; apply list_elem_of_In in Hev; simpl in Hev.
  all: repeat (destruct Hev as [<-|Hev]; [|]); try contradiction.
  all: simpl in Hk, Hr; subst k; try discriminate.
  all: injection Hr as ->; done.
Qed.

Lemma crew_failure_aborts_witness :
  (∃ ev, ev ∈ (kickoff_crew collab_fail_at_2 "test_project").1 ∧
         ev_stage ev = 2 ∧ ev_result ev = StageFailed "rate limit") ∧
  (kickoff_crew collab_fail_at_2 "test_project").2 = Failed 2 "rate limit" ∧
  map ev_stage (kickoff_crew collab_fail_at_2 "test_project").1 = seq 1 2.
Proof.
  assert (H : ∃ ev, ev ∈ (kickoff_crew collab_fail_at_2 "test_project").1 ∧
                    ev_stage ev = 2 ∧ ev_result ev = StageFailed "rate limit").
  { exists (List.nth 1 (kickoff_crew collab_fail_at_2 "test_project").1
              (mkEvent 0 (mkCtx "" "" []) (StageOk ""))).
    split; [|vm_compute; split; reflexivity].
    apply list_elem_of_In. vm_compute. right. left. reflexivity. }
  split; [exact H|].
  apply crew_failure_aborts. exact H.
Defined.

(* ------------------------------------------------------------------ *)
(** ** Claims about the [__main__] block *)

(** C3 (the failing run): with an existing project directory and a crew
    whose [kickoff] raises, the script prints the diagnostic, then falls
    off the end of the [except] block: the process exits with status 0. *)
Lemma main_kickoff_error_exit_status :
  main None (mkFS {[["test_project"]]} ∅ ∅) (fun _ _ => KickoffRaises "model call failed")
  = mkRun [Print "✓ Target directory 'test_project' found.";
           Print "  Files found: 0";
           Print ("
" ++ str_repeat 50 "=")%string;
           Print "Starting MADS - Enhanced Documentation System";
           Print (str_repeat 50 "=" ++ "
")%string;
           Kickoff ["test_project"];
           Print "
❌ Error during execution: model call failed";
           Print "Please check your configuration and try again."]
          0.
Proof. vm_compute. reflexivity. Qed.

(** C9: when the project directory does not exist, the script prints a
    diagnostic and exits with status 1 without ever calling [kickoff]. *)
Theorem main_missing_dir (env_project_dir : option path) (s : fs)
    (kickoff : path → fs → KickoffResult) :
  os_path_exists s (default ["test_project"] env_project_dir) = false →
  exit_status (main env_project_dir s kickoff) = 1 ∧
  (∀ d, Kickoff d ∉ events (main env_project_dir s kickoff)) ∧
  events (main env_project_dir s kickoff) ≠ [].
Proof.
  intros H. unfold main. rewrite H. simpl.
  split; [done|]. split; [|done].
  intros d Hd. apply list_elem_of_In in Hd. simpl in Hd.
  destruct Hd as [Hd|[Hd|[]]]; discriminate.
Qed.

Lemma main_missing_dir_witness :
  os_path_exists fs0 (default ["test_project"] (Some ["no_such_dir"])) = false ∧
  exit_status (main (Some ["no_such_dir"]) fs0 (fun _ s => KickoffOk s)) = 1 ∧
  (∀ d, Kickoff d ∉ events (main (Some ["no_such_dir"]) fs0 (fun _ s => KickoffOk s))) ∧
  events (main (Some ["no_such_dir"]) fs0 (fun _ s => KickoffOk s)) ≠ [].
Proof.
  split; [vm_compute; reflexivity|].
  apply main_missing_dir. vm_compute. reflexivity.
Defined.

(* ===================================================================== *)
(** * Further properties of the code *)

Section Utf8Arith.
Local Open Scope Z_scope.

Lemma lor_disjoint_add (a y n : Z) :
  (0 <= n)%Z → (a mod 2 ^ n = 0)%Z → (0 <= y < 2 ^ n)%Z → Z.lor a y = (a + y)%Z.
Proof.
  intros Hn Ha Hy.
  assert (Hland : Z.land a y = 0%Z).
  { apply Z.bits_inj'. intros i Hi. rewrite Z.land_spec, Z.bits_0.
    destruct (Z.lt_ge_cases i n) as [Hlt|Hge].
    - rewrite <- (Z.mod_pow2_bits_low a n i) by lia. rewrite Ha, Z.bits_0. done.
    - destruct (Z.eq_dec y 0) as [->|Hy0]; [rewrite Z.bits_0, andb_false_r; done|].
      rewrite (Z.bits_above_log2 y i); [apply andb_false_r|lia|].
      assert (Z.log2 y < n) by (apply Z.log2_lt_pow2; lia). lia. }
  rewrite <- Z.lxor_lor by done. rewrite Z.add_nocarry_lxor by done. done.
Qed.

Lemma land_0x3F (x : Z) : Z.land x 0x3F = (x mod 64)%Z.
Proof. change 0x3F%Z with (Z.ones 6). rewrite Z.land_ones by lia. done. Qed.
Lemma land_0x1F (x : Z) : Z.land x 0x1F = (x mod 32)%Z.
Proof. change 0x1F%Z with (Z.ones 5). rewrite Z.land_ones by lia. done. Qed.
Lemma land_0x0F (x : Z) : Z.land x 0x0F = (x mod 16)%Z.
Proof. change 0x0F%Z with (Z.ones 4). rewrite Z.land_ones by lia. done. Qed.
Lemma land_0x07 (x : Z) : Z.land x 0x07 = (x mod 8)%Z.
Proof. change 0x07%Z with (Z.ones 3). rewrite Z.land_ones by lia. done. Qed.

Lemma lor_const (k y n : Z) :
  (0 <= n)%Z → (k mod 2 ^ n = 0)%Z → (0 <= y < 2 ^ n)%Z → Z.lor k y = (k + y)%Z.
Proof. apply lor_disjoint_add. Qed.

Lemma shiftl_mul (x n : Z) : (0 <= n)%Z → Z.shiftl x n = (x * 2 ^ n)%Z.
Proof. intros. apply Z.shiftl_mul_pow2. done. Qed.
Lemma shiftr_6 (x : Z) : Z.shiftr x 6 = x / 64.
Proof. apply Z.shiftr_div_pow2. lia. Qed.
Lemma shiftr_12 (x : Z) : Z.shiftr x 12 = x / 4096.
Proof. apply Z.shiftr_div_pow2. lia. Qed.
Lemma shiftr_18 (x : Z) : Z.shiftr x 18 = x / 262144.
Proof. apply Z.shiftr_div_pow2. lia. Qed.

(** the bytes of [utf8_encode_cp], arithmetically *)
Lemma cont_byte (x : Z) : Z.lor 0x80 (Z.land x 0x3F) = (128 + x mod 64)%Z.
Proof.
  rewrite land_0x3F. apply (lor_const _ _ 6); [lia|reflexivity|].
  pose proof (Z.mod_pos_bound x 64). simpl. lia.
Qed.

Lemma dec2 (b0 b1 : Z) :
  Z.lor (Z.shiftl (Z.land b0 0x1F) 6) (cont_bits b1) = ((b0 mod 32) * 64 + b1 mod 64)%Z.
Proof.
  unfold cont_bits. rewrite land_0x1F, land_0x3F, shiftl_mul by lia.
  apply (lor_disjoint_add _ _ 6); [lia| |].
  - change (2 ^ 6)%Z with 64%Z. apply Z.mod_mul. lia.
  - pose proof (Z.mod_pos_bound b1 64). simpl. lia.
Qed.

Lemma dec3 (b0 b1 b2 : Z) :
  Z.lor (Z.shiftl (Z.land b0 0x0F) 12) (Z.lor (Z.shiftl (cont_bits b1) 6) (cont_bits b2))
  = ((b0 mod 16) * 4096 + (b1 mod 64) * 64 + b2 mod 64)%Z.
Proof.
  unfold cont_bits. rewrite land_0x0F, !land_0x3F, !shiftl_mul by lia.
  pose proof (Z.mod_pos_bound b1 64). pose proof (Z.mod_pos_bound b2 64).
  rewrite (lor_disjoint_add ((b1 mod 64) * 2 ^ 6) _ 6); [|lia|apply Z.mod_mul; lia|simpl; lia].
  rewrite (lor_disjoint_add _ _ 12); [simpl; lia|lia|apply Z.mod_mul; simpl; lia|simpl; lia].
Qed.

Lemma dec4 (b0 b1 b2 b3 : Z) :
  Z.lor (Z.shiftl (Z.land b0 0x07) 18)
    (Z.lor (Z.shiftl (cont_bits b1) 12) (Z.lor (Z.shiftl (cont_bits b2) 6) (cont_bits b3)))
  = ((b0 mod 8) * 262144 + (b1 mod 64) * 4096 + (b2 mod 64) * 64 + b3 mod 64)%Z.
Proof.
  unfold cont_bits. rewrite land_0x07, !land_0x3F, !shiftl_mul by lia.
  pose proof (Z.mod_pos_bound b1 64). pose proof (Z.mod_pos_bound b2 64).
  pose proof (Z.mod_pos_bound b3 64).
  rewrite (lor_disjoint_add ((b2 mod 64) * 2 ^ 6) _ 6); [|lia|apply Z.mod_mul; lia|simpl; lia].
  rewrite (lor_disjoint_add ((b1 mod 64) * 2 ^ 12) _ 12);
    [|lia|apply Z.mod_mul; simpl; lia|simpl; lia].
  rewrite (lor_disjoint_add _ _ 18); [simpl; lia|lia|apply Z.mod_mul; simpl; lia|simpl; lia].
Qed.
End Utf8Arith.
Section Utf8Roundtrip.
Local Open Scope Z_scope.
Ltac zlia := Z.div_mod_to_equations; lia.
Ltac zcond :=
  repeat first
    [ rewrite (proj2 (Z.ltb_lt _ _)) by zlia
    | rewrite (proj2 (Z.ltb_ge _ _)) by zlia
    | rewrite (proj2 (Z.leb_le _ _)) by zlia
    | rewrite (proj2 (Z.leb_gt _ _)) by zlia
    | rewrite (proj2 (Z.eqb_eq _ _)) by zlia
    | rewrite (proj2 (Z.eqb_neq _ _)) by zlia
    | match goal with |- context [(?x =? ?y)] => destruct (Z.eqb_spec x y) end ];
  cbn [andb negb].

Lemma utf8_encode_cp_decode (c : Z) (rest : list Z) :
  0 <= c <= 0x10FFFF → is_surrogate c = false →
  ∃ bs, utf8_encode_cp c = Some bs ∧ utf8_decode (bs ++ rest) = cons c <$> utf8_decode rest.
Proof.
  intros Hc Hs. unfold utf8_encode_cp. rewrite Hs. unfold is_surrogate in Hs.
  destruct (Z.ltb_spec c 0x80) as [H1|H1].
  { eexists. split; [done|]. cbn [app utf8_decode]. zcond. done. }
  destruct (Z.ltb_spec c 0x800) as [H2|H2].
  { eexists. split; [done|].
    rewrite cont_byte, shiftr_6, ?shiftr_12, ?shiftr_18.
    rewrite (lor_const _ _ 5); [|lia|reflexivity|]; cycle 1.
    { split; [apply Z.div_pos; lia|]. apply Z.div_lt_upper_bound; [lia|].
      simpl. lia. }
    cbn [app utf8_decode]. unfold is_cont, in_range. zcond;
    rewrite dec2; f_equal; f_equal; zlia. }
  assert (Hs' : c < 0xD800 ∨ 0xDFFF < c).
  { destruct (Z.leb_spec 0xD800 c), (Z.leb_spec c 0xDFFF); simpl in Hs; try done; lia. }
  destruct (Z.ltb_spec c 0x10000) as [H3|H3].
  { eexists. split; [done|].
    rewrite !cont_byte, !shiftr_6, ?shiftr_12, ?shiftr_18.
    rewrite (lor_const _ _ 4); [|lia|reflexivity|]; cycle 1.
    { split; [apply Z.div_pos; lia|]. apply Z.div_lt_upper_bound; [lia|].
      simpl. lia. }
    cbn [app utf8_decode]. unfold is_cont, in_range. zcond;
    rewrite dec3; f_equal; f_equal; zlia. }
  { eexists. split; [done|].
    rewrite !cont_byte, !shiftr_6, ?shiftr_12, ?shiftr_18.
    rewrite (lor_const _ _ 3); [|lia|reflexivity|]; cycle 1.
    { split; [apply Z.div_pos; lia|]. apply Z.div_lt_upper_bound; [lia|].
      simpl. lia. }
    cbn [app utf8_decode]. unfold is_cont, in_range. zcond;
    rewrite dec4; f_equal; f_equal; zlia. }
Qed.
End Utf8Roundtrip.

(** X1: encoding a string of Unicode scalar values (no surrogates) to UTF-8 succeeds, and decoding the bytes gives the same string back. *)
Lemma utf8_roundtrip (s : pystr) :
  Forall (fun c => (0 <= c <= 0x10FFFF)%Z ∧ is_surrogate c = false) s →
  ∃ bs, utf8_encode s = Some bs ∧ utf8_decode bs = Some s.
Proof.
  induction 1 as [|c s [Hc Hs] _ [bs [Henc Hdec]]]; [exists []; done|].
  destruct (utf8_encode_cp_decode c bs Hc Hs) as (b & Hb & Hd).
  exists (b ++ bs). split; [simpl; rewrite Hb, Henc; done|].
  rewrite Hd, Hdec. done.
Qed.



Lemma translate_newlines_no_cr (t : pystr) : Forall (fun c => c ≠ 13%Z) (translate_newlines t).
Proof.
  cut (Forall (fun c => c ≠ 13%Z) (translate_newlines t) ∧
       Forall (fun c => c ≠ 13%Z) (translate_newlines (tail t))); [tauto|].
  induction t as [|c r [IH1 IH2]]; [split; constructor|].
  split; [|done]. cbn [translate_newlines].
  destruct (Z.eqb_spec c 13) as [->|Hc].
  - destruct r as [|d r']; [repeat constructor; lia|].
    destruct (Z.eqb_spec d 10); constructor; try lia; done.
  - constructor; done.
Qed.

Theorem read_text_no_cr (s s' : fs) (p : path) (t : pystr) :
  read_text p s = (s', Ret t) → s' = s ∧ Forall (fun c => c ≠ 13%Z) t.
Proof.
  unfold read_text, pbind, pget, praise, pret. cbv beta iota.
  destruct (has_nul p), (bool_decide (p = [])), (is_dir s p), (ancestor_is_file s p); try done.
  destruct (fs_files s !! p) as [bs|]; [|done].
  destruct (utf8_decode bs); [|done].
  intros [= <- <-]. split; [done|]. apply translate_newlines_no_cr.
Qed.

(** X5: CodeAnalyzerTool._run never changes the file system and never raises: it returns either an error message or the analysis of a text without carriage returns. *)
Theorem CodeAnalyzerTool_total (s : fs) (p : path) :
  (∃ e, CodeAnalyzerTool_run p s =
          (s, Ret (AnalyzerError ("Error analyzing " ++ path_str p ++ ": " ++ exc_str e)%string))) ∨
  (∃ t, Forall (fun c => c ≠ 13%Z) t ∧
        CodeAnalyzerTool_run p s = (s, Ret (AnalysisJson (analyze_content p t)))).
Proof.
  destruct (read_text p s) as [s' [t|e]] eqn:E.
  - right. apply read_text_no_cr in E as Hn. destruct Hn as [-> Hn].
    exists t. split; [done|]. apply CodeAnalyzerTool_run_read. done.
  - left. exists e.
    assert (s' = s) as ->.
    { revert E. unfold read_text, pbind, pget, praise, pret. cbv beta iota.
      destruct (has_nul p), (bool_decide (p = [])), (is_dir s p), (ancestor_is_file s p); try (intros [= <-]; done).
      destruct (fs_files s !! p) as [bs|]; [|intros [= <-]; done].
      destruct (utf8_decode bs); intros [= <-]; done. }
    unfold CodeAnalyzerTool_run, try_except, pbind. rewrite E. done.
Qed.











Lemma lstrip_head (s : pystr) :
  lstrip s = [] ∨ ∃ c r, lstrip s = c :: r ∧ py_isspace c = false.
Proof.
  induction s as [|c r IH]; [left; done|]. cbn [lstrip].
  destruct (py_isspace c) eqn:E; [done|]. right. exists c, r. done.
Qed.

Lemma lstrip_suffix (s : pystr) : ∃ pre, s = pre ++ lstrip s.
Proof.
  induction s as [|c r [pre IH]]; [exists []; done|]. cbn [lstrip].
  destruct (py_isspace c); [exists (c :: pre); simpl; rewrite <- IH; done|exists []; done].
Qed.

Lemma py_strip_ends (l : pystr) :
  py_strip l = [] ∨
  (py_isspace (hd 0%Z (py_strip l)) = false ∧ py_isspace (List.last (py_strip l) 0%Z) = false).
Proof.
  unfold py_strip.
  destruct (lstrip_head (rev (lstrip l))) as [E|(c & r & E & Hc)]; [left; rewrite E; done|].
  right. rewrite E. split.
  - destruct (lstrip_suffix (rev (lstrip l))) as [pre Hpre].
    rewrite E in Hpre. apply (f_equal (@rev Z)) in Hpre.
    rewrite rev_involutive, rev_app_distr in Hpre.
    destruct (lstrip_head l) as [F|(c' & r' & F & Hc')].
    + rewrite F in Hpre. destruct (rev (c :: r)) eqn:G; [|done].
      apply (f_equal length) in G. rewrite length_rev in G. done.
    + rewrite F in Hpre. cbn [rev] in Hpre |- *. rewrite <- app_assoc in Hpre.
      destruct (rev r) as [|d rr] eqn:G; cbn [app hd] in Hpre |- *.
      * injection Hpre as <- _. done.
      * injection Hpre as <- _. done.
  - cbn [rev]. rewrite List.last_last. done.
Qed.

Lemma startswith_import_nonempty (x : pystr) :
  startswith_any x import_prefixes = true → x ≠ [].
Proof.
  intros H ->. done.
Qed.

(** X9: every import line reported by the analysis is non-empty and has no leading or trailing whitespace. *)
Theorem analyze_imports_stripped (p : path) (content : pystr) :
  Forall (fun x => x ≠ [] ∧ py_isspace (hd 0%Z x) = false ∧
                   py_isspace (List.last x 0%Z) = false)
    (an_imports (analyze_content p content)).
Proof.
  cbn [analyze_content an_imports].
  generalize (split_on 10 content). intros lines.
  induction lines as [|l ls IH]; cbn [import_lines]; [constructor|].
  destruct (startswith_any (py_strip l) import_prefixes) eqn:E; [|done].
  constructor; [|done].
  apply startswith_import_nonempty in E.
  destruct (py_strip_ends l) as [F|F]; [done|]. done.
Qed.

Lemma split_last_dot_rev_Some (rb e st : list Ascii.ascii) :
  split_last_dot_rev rb = Some (e, st) → rb = e ++ "."%char :: st ∧ "."%char ∉ e.
Proof.
  revert e st. induction rb as [|a r IH]; intros e st; cbn [split_last_dot_rev]; [done|].
  case_bool_decide as Ha.
  - intros [= <- <-]. subst a. split; [done|]. apply not_elem_of_nil.
  - destruct (split_last_dot_rev r) as [[e' st']|]; [|done].
    intros [= <- <-]. destruct (IH e' st' eq_refl) as [-> He].
    split; [done|]. rewrite elem_of_cons. intros [E|H]; [apply Ha; symmetry; done|done].
Qed.

Lemma split_last_dot_rev_None (rb : list Ascii.ascii) :
  "."%char ∉ rb → split_last_dot_rev rb = None.
Proof.
  induction rb as [|a r IH]; intros H; cbn [split_last_dot_rev]; [done|].
  rewrite elem_of_cons in H.
  rewrite bool_decide_eq_false_2 by (intros ->; apply H; left; done).
  rewrite IH; [done|]. intros F. apply H. right. done.
Qed.

(** X10: file_type is empty when the base name has no dot; otherwise it is empty or it is the dot and the text after the last dot of the base name, which has some non-dot character before that dot. *)
Theorem splitext_ext_spec (p : path) :
  let b := String.list_ascii_of_string (List.last p "") in
  ("."%char ∉ b → splitext_ext p = "") ∧
  (splitext_ext p = "" ∨
   ∃ stem e, b = stem ++ "."%char :: e ∧ ("."%char ∉ e) ∧
             Exists (fun a => a ≠ "."%char) stem ∧
             splitext_ext p = String.string_of_list_ascii ("."%char :: e)).
Proof.
  cbv zeta. unfold splitext_ext.
  set (b := String.list_ascii_of_string (List.last p "")).
  split.
  - intros Hb. rewrite split_last_dot_rev_None; [done|].
    rewrite list_elem_of_In, <- in_rev, <- list_elem_of_In. done.
  - destruct (split_last_dot_rev (rev b)) as [[e st]|] eqn:E; [|left; done].
    apply split_last_dot_rev_Some in E as [E He].
    destruct (forallb _ st) eqn:F; [left; done|]. right.
    exists (rev st), (rev e). split; [|split; [|split]].
    + rewrite <- (rev_involutive b), E, rev_app_distr. cbn [rev]. rewrite <- app_assoc. done.
    + rewrite list_elem_of_In, <- in_rev, <- list_elem_of_In. done.
    + apply Exists_exists.
      assert (G : ∃ a, In a st ∧ a ≠ "."%char).
      { clear -F. induction st as [|a st IH]; [done|].
        cbn [forallb] in F. apply andb_false_iff in F as [F|F].
        - exists a. split; [left; done|]. intros ->. done.
        - destruct (IH F) as (x & Hx & Hx'). exists x. split; [right|]; done. }
      destruct G as (a & Ha & Ha'). exists a. split; [|done].
      apply list_elem_of_In. rewrite <- in_rev. done.
    + done.
Qed.



Section CalcProofs.
Context {Num : Type} `{PyNum Num}.

(** X13: Calculator.calculate appends to the history only when it
    returns: then the new entry is [f"{operation}({a}, {b}) = {result}"],
    with [str] of [a], [b] and the result; when it raises, the history is
    left as it was. *)
Theorem calculate_history (self : calculator.Calculator) (operation : string) (a b : Num) :
  match calculator.calculate self operation a b with
  | (self', Ret r) =>
      ∃ sa sb sr, num_str a = Ret sa ∧ num_str b = Ret sb ∧ num_str r = Ret sr ∧
      calculator.history self' = calculator.history self ++
        [(operation ++ "(" ++ sa ++ ", " ++ sb ++ ") = " ++ sr)%string]
  | (self', Exc _) => self' = self
  end.
Proof.
  unfold calculator.calculate, out_bind. cbv zeta.
  repeat case_match; simplify_eq; try done.
  all: do 3 eexists; split_and!; first [reflexivity | eassumption].
Qed.

End CalcProofs.

Import utils.

Lemma dict_get_set_other (k k' : string) (v : PyVal) (d : dict) :
  k ≠ k' → dict_get k (dict_set k' v d) = dict_get k d.
Proof.
  intros Hk. induction d as [|[k'' v''] r IH]; cbn [dict_set dict_get].
  - destruct (String.eqb_spec k k'); done.
  - destruct (String.eqb_spec k' k'') as [->|H1]; cbn [dict_get].
    + destruct (String.eqb_spec k k''); done.
    + destruct (String.eqb_spec k k''); done.
Qed.

Lemma dict_set_idem (k : string) (v : PyVal) (d : dict) :
  dict_set k v (dict_set k v d) = dict_set k v d.
Proof.
  induction d as [|[k' v'] r IH]; cbn [dict_set].
  - rewrite String.eqb_refl. done.
  - destruct (String.eqb_spec k k') as [->|H]; cbn [dict_set].
    + rewrite String.eqb_refl. done.
    + destruct (String.eqb_spec k k'); [done|]. rewrite IH. done.
Qed.

Lemma selected_after_set (h : heap) (item l : loc) (d : dict) :
  h !! item = Some d →
  selected (<[item := dict_set "processed" (VBool true) d]> h) l = selected h l.
Proof.
  intros Hd. unfold selected.
  destruct (decide (l = item)) as [->|Hne].
  - rewrite lookup_insert_eq, Hd, dict_get_set_other by done. done.
  - rewrite lookup_insert_ne by done. done.
Qed.

Lemma comparable_after_set (h : heap) (item l : loc) (d : dict) :
  h !! item = Some d →
  comparable (<[item := dict_set "processed" (VBool true) d]> h) l = comparable h l.
Proof.
  intros Hd. unfold comparable.
  destruct (decide (l = item)) as [->|Hne].
  - rewrite lookup_insert_eq, Hd, dict_get_set_other by done. done.
  - rewrite lookup_insert_ne by done. done.
Qed.

Lemma process_data_loop_ok (data acc : list loc) (h : heap) :
  (∀ l, l ∈ data → comparable h l = true) →
  ∃ h', process_data_loop data acc h = (h', Some (acc ++ List.filter (selected h) data)) ∧
        ∀ l, h' !! l = if bool_decide (l ∈ data) && selected h l
                       then dict_set "processed" (VBool true) <$> h !! l else h !! l.
Proof.
  revert acc h. induction data as [|item rest IH]; intros acc h Hc.
  - exists h. rewrite app_nil_r. split; [done|]. intros l. rewrite bool_decide_eq_false_2; [done|].
    apply not_elem_of_nil.
  - assert (Hcr : ∀ l, l ∈ rest → comparable h l = true) by (intros l Hl; apply Hc; set_solver).
    (* an item the [if] does not take leaves everything as it was *)
    assert (Hskip : selected h item = false →
      process_data_loop rest acc h = process_data_loop (item :: rest) acc h →
      ∃ h', process_data_loop (item :: rest) acc h =
              (h', Some (acc ++ List.filter (selected h) (item :: rest))) ∧
            ∀ l, h' !! l = if bool_decide (l ∈ item :: rest) && selected h l
                           then dict_set "processed" (VBool true) <$> h !! l else h !! l).
    { intros Hs Heq. destruct (IH acc h Hcr) as (h' & Hrun & Hh').
      exists h'. rewrite <- Heq, Hrun. cbn [List.filter]. rewrite Hs. split; [done|].
      intros l. rewrite Hh'. destruct (decide (l = item)) as [->|Hne].
      + rewrite Hs, !andb_false_r. done.
      + rewrite (bool_decide_ext (l ∈ item :: rest) (l ∈ rest)); [done|]. set_solver. }
    destruct (h !! item) as [d|] eqn:Hd.
    2: { apply Hskip; [unfold selected; rewrite Hd; done|]. cbn [process_data_loop]. rewrite Hd. done. }
    destruct (dict_get "value" d) as [v|] eqn:Hv.
    2: { apply Hskip; [unfold selected; rewrite Hd, Hv; done|].
         cbn [process_data_loop]. rewrite Hd, Hv. done. }
    destruct (gt_zero v) as [[|]|] eqn:Hg.
    3: { exfalso. specialize (Hc item ltac:(set_solver)). unfold comparable in Hc.
         rewrite Hd, Hv, Hg in Hc. done. }
    2: { apply Hskip; [unfold selected; rewrite Hd, Hv, Hg; done|].
         cbn [process_data_loop]. rewrite Hd, Hv, Hg. done. }
    assert (Hsel : selected h item = true) by (unfold selected; rewrite Hd, Hv, Hg; done).
    set (h1 := <[item := dict_set "processed" (VBool true) d]> h).
    destruct (IH (acc ++ [item]) h1) as (h' & Hrun & Hh').
    { intros l Hl. unfold h1. rewrite comparable_after_set by done. apply Hcr. done. }
    exists h'. cbn [process_data_loop]. rewrite Hd, Hv, Hg. fold h1. rewrite Hrun. split.
    + cbn [List.filter]. rewrite Hsel, <- app_assoc. cbn [app].
      rewrite (List.filter_ext (selected h1) (selected h)); [done|]. intros l. apply selected_after_set. done.
    + intros l. rewrite Hh'. subst h1. rewrite selected_after_set by done.
      destruct (decide (l = item)) as [->|Hne].
      * rewrite lookup_insert_eq, Hsel, Hd.
        rewrite (bool_decide_eq_true_2 (item ∈ item :: rest)) by (left; done).
        rewrite !andb_true_r.
        case_bool_decide; cbn [fmap option_fmap option_map]; [rewrite dict_set_idem|]; done.
      * rewrite lookup_insert_ne by done.
        rewrite (bool_decide_ext (l ∈ item :: rest) (l ∈ rest)); [done|]. set_solver.
Qed.

Lemma process_data_loop_app (pre rest acc : list loc) (h h1 : heap) (acc1 : list loc) :
  process_data_loop pre acc h = (h1, Some acc1) →
  process_data_loop (pre ++ rest) acc h = process_data_loop rest acc1 h1.
Proof.
  revert acc h. induction pre as [|x pre IH]; intros acc h; cbn [process_data_loop app].
  - intros [= <- <-]. done.
  - destruct (h !! x) as [d|]; [|apply IH].
    destruct (dict_get "value" d) as [v|]; [|apply IH].
    destruct (gt_zero v) as [[|]|]; [apply IH|apply IH|done].
Qed.

Lemma forallb_comparable (data : list loc) (h : heap) :
  forallb (comparable h) data = true → ∀ l, l ∈ data → comparable h l = true.
Proof.
  intros Hc l Hl. rewrite forallb_forall in Hc. apply Hc, list_elem_of_In. done.
Qed.

(** X15: when every value is comparable with 0, process_data returns the items whose value is greater than 0, in their input order. *)
Theorem process_data_selects (data : list loc) (h : heap) :
  forallb (comparable h) data = true →
  (process_data data h).2 = Some (List.filter (selected h) data).
Proof.
  intros Hc. pose proof (forallb_comparable _ _ Hc) as Hc'. clear Hc. rename Hc' into Hc. destruct (process_data_loop_ok data [] h Hc) as (h' & Hrun & _).
  unfold process_data. rewrite Hrun. done.
Qed.

(** X16: when every value is comparable with 0, process_data sets processed to True in exactly the selected dicts and leaves every other dict as it was. *)
Theorem process_data_mutates (data : list loc) (h : heap) :
  forallb (comparable h) data = true →
  ∀ l, (process_data data h).1 !! l =
       if bool_decide (l ∈ data) && selected h l
       then dict_set "processed" (VBool true) <$> h !! l else h !! l.
Proof.
  intros Hc. pose proof (forallb_comparable _ _ Hc) as Hc'. clear Hc. rename Hc' into Hc. destruct (process_data_loop_ok data [] h Hc) as (h' & Hrun & Hh').
  unfold process_data. rewrite Hrun. exact Hh'.
Qed.

(** X17: the first item whose value cannot be compared with 0 makes process_data raise, after the mutations of the items before it. *)
Theorem process_data_type_error (pre post : list loc) (item : loc) (h : heap)
    (d : dict) (v : PyVal) :
  forallb (comparable h) pre = true →
  h !! item = Some d → dict_get "value" d = Some v → gt_zero v = None →
  process_data (pre ++ item :: post) h = ((process_data pre h).1, None).
Proof.
  intros Hc Hd Hv Hg. pose proof (forallb_comparable _ _ Hc) as Hc'. clear Hc. rename Hc' into Hc.
  destruct (process_data_loop_ok pre [] h Hc) as (h1 & Hrun & Hh1).
  unfold process_data. rewrite (process_data_loop_app _ _ _ _ _ _ Hrun), Hrun.
  cbn [fst process_data_loop].
  assert (Hs : selected h item = false) by (unfold selected; rewrite Hd, Hv, Hg; done).
  rewrite Hh1, Hs, andb_false_r, Hd, Hv, Hg. done.
Qed.

(** ** Witnesses of the further properties *)

Lemma utf8_roundtrip_witness :
  Forall (fun c => (0 <= c <= 0x10FFFF)%Z ∧ is_surrogate c = false)
    [0x41; 0xE9; 0x20AC; 0x1F600]%Z ∧
  ∃ bs, utf8_encode [0x41; 0xE9; 0x20AC; 0x1F600]%Z = Some bs ∧
        utf8_decode bs = Some [0x41; 0xE9; 0x20AC; 0x1F600]%Z.
Proof.
  split; [apply (bool_decide_unpack _); vm_compute; reflexivity|].
  apply utf8_roundtrip. apply (bool_decide_unpack _). vm_compute. reflexivity.
Defined.




(** The message of that witness, as CPython prints it. *)
Example FileWriteTool_error_unchanged_text :
  (FileWriteTool_run ["notes.txt"; "a.md"] (cps "x") (mkFS ∅ {[["notes.txt"] := []]} ∅)).2 =
    Ret "Error writing file 'notes.txt/a.md': [Errno 20] Not a directory: 'notes.txt/a.md'".
Proof. vm_compute. reflexivity. Qed.


(** The message of that witness, as CPython prints it. *)
Example CodeAnalyzerTool_missing_file_text :
  (CodeAnalyzerTool_run ["missing.py"] fs0).2 =
    Ret (AnalyzerError "Error analyzing missing.py: [Errno 2] No such file or directory: 'missing.py'").
Proof. vm_compute. reflexivity. Qed.


(** The messages of CPython's strict UTF-8 decoder on a few inputs. *)
Example CodeAnalyzerTool_not_utf8_text :
  (CodeAnalyzerTool_run ["blob.py"] (mkFS ∅ {[["blob.py"] := [0xFF%Z]]} ∅)).2 =
    Ret (AnalyzerError "Error analyzing blob.py: 'utf-8' codec can't decode byte 0xff in position 0: invalid start byte") ∧
  exc_str (UnicodeDecodeError [0x61; 0xE2; 0x82]%Z) =
    "'utf-8' codec can't decode bytes in position 1-2: unexpected end of data" ∧
  exc_str (UnicodeDecodeError [0xED; 0xA0; 0x80]%Z) =
    "'utf-8' codec can't decode byte 0xed in position 0: invalid continuation byte" ∧
  exc_str (UnicodeDecodeError [0xE2; 0x28; 0xA1]%Z) =
    "'utf-8' codec can't decode byte 0xe2 in position 0: invalid continuation byte".
Proof. vm_compute. split_and!; reflexivity. Qed.


Lemma process_data_selects_witness :
  forallb (comparable sample_heap) sample_data = true ∧
  (process_data sample_data sample_heap).2 = Some (List.filter (selected sample_heap) sample_data).
Proof.
  split; [vm_compute; reflexivity|].
  apply process_data_selects. vm_compute. reflexivity.
Defined.

Lemma process_data_mutates_witness :
  forallb (comparable sample_heap) sample_data = true ∧
  ∀ l, (process_data sample_data sample_heap).1 !! l =
       if bool_decide (l ∈ sample_data) && selected sample_heap l
       then dict_set "processed" (VBool true) <$> sample_heap !! l else sample_heap !! l.
Proof.
  split; [vm_compute; reflexivity|].
  apply process_data_mutates. vm_compute. reflexivity.
Defined.

Lemma process_data_type_error_witness :
  forallb (comparable (<[4 := [("id", VInt 4); ("value", VStr "n/a")]]> sample_heap)) [1] = true ∧
  (<[4 := [("id", VInt 4); ("value", VStr "n/a")]]> sample_heap) !! 4
    = Some [("id", VInt 4); ("value", VStr "n/a")] ∧
  dict_get "value" [("id", VInt 4); ("value", VStr "n/a")] = Some (VStr "n/a") ∧
  gt_zero (VStr "n/a") = None ∧
  process_data ([1] ++ 4 :: [3]) (<[4 := [("id", VInt 4); ("value", VStr "n/a")]]> sample_heap) =
    ((process_data [1] (<[4 := [("id", VInt 4); ("value", VStr "n/a")]]> sample_heap)).1, None).
Proof.
  split; [vm_compute; reflexivity|]. split; [vm_compute; reflexivity|].
  split; [vm_compute; reflexivity|]. split; [vm_compute; reflexivity|].
  apply (process_data_type_error _ _ _ _ [("id", VInt 4); ("value", VStr "n/a")]
           (VStr "n/a")); vm_compute; reflexivity.
Defined.
